(** * Job polling and request guards of the Firefly demo backend

    A shallow embedding of [backend/automate_workflow.py], of the request
    handlers of [backend/main.py] and of the S3 helpers of
    [backend/aws.py].  Network traffic, sleeping, printing and the process
    globals are threaded through an explicit [World]; Python exceptions are
    an outcome of their own; the unbounded [while] loops take fuel.  One
    handler or script runs at a time: requests served concurrently, which
    would share the global counter of main.py, are not modelled. *)

From Stdlib Require Import ZArith List String Ascii Bool Lia PeanoNat.
Import ListNotations.
Open Scope string_scope.
Open Scope Z_scope.
Set Warnings "-register-all".

(** ** JSON values, as [response.json()] hands them to Python *)

(** Numbers are kept as integers: the code only tests them for truth and
    never computes with them. [JNull] is Python's [None]. *)
Inductive json : Type :=
| JNull
| JBool (b : bool)
| JNum (z : Z)
| JStr (s : string)
| JArr (items : list json)
| JObj (fields : list (string * json)).

(** ** Exceptions *)

Inductive exn : Type :=
| HTTPException (status_code : Z) (detail : detail)   (* fastapi *)
| HTTPError (status_code : Z)          (* requests: raise_for_status *)
| ConnectionError                      (* requests: no reply at all *)
| JSONDecodeError                      (* requests: body is not JSON *)
| ClientError                          (* botocore *)
| KeyError (key : json)
| IndexError
| TypeError
| AttributeError
| OverflowError                        (* time.sleep: delay too large *)
| ValueError                           (* time.sleep: negative delay *)
with detail : Type :=
| Text (s : string)
| StrOf (s : string) (e : exn)         (* f"<s>{e}", and str(e) for s empty *)
| ResponseText (body : option json).   (* response.text *)

Definition Err (A : Type) : Type := (exn + A)%type.

Definition ebind {A B} (c : Err A) (k : A -> Err B) : Err B :=
  match c with
  | inl e => inl e
  | inr a => k a
  end.

Notation "x <~ c1 ;; c2" := (ebind c1 (fun x => c2))
  (at level 61, c1 at next level, right associativity).

(** ** The Python operations the pollers apply to a response body *)

Fixpoint dict_lookup (k : string) (fields : list (string * json)) : option json :=
  match fields with
  | [] => None
  | (k', v) :: rest => if String.eqb k k' then Some v else dict_lookup k rest
  end.

(** [v == s] for a string literal [s]. *)
Definition py_is (s : string) (v : json) : bool :=
  match v with
  | JStr t => String.eqb s t
  | _ => false
  end.

(** [v in [s1, s2, ...]] for string literals. *)
Definition py_in_strs (v : json) (l : list string) : bool :=
  existsb (fun s => py_is s v) l.

(** [sub in s] on two strings. *)
Fixpoint str_contains (sub s : string) : bool :=
  String.prefix sub s ||
  match s with
  | EmptyString => false
  | String _ s' => str_contains sub s'
  end.

(** [k in v]. *)
Definition py_in (k : string) (v : json) : Err bool :=
  match v with
  | JObj f => inr (match dict_lookup k f with Some _ => true | None => false end)
  | JArr l => inr (existsb (py_is k) l)
  | JStr t => inr (str_contains k t)
  | _ => inl TypeError
  end.

(** [v[k]] for a string key. *)
Definition py_item (v : json) (k : string) : Err json :=
  match v with
  | JObj f => match dict_lookup k f with
              | Some x => inr x
              | None => inl (KeyError (JStr k))
              end
  | _ => inl TypeError
  end.

(** [v[0]]. *)
Definition py_item0 (v : json) : Err json :=
  match v with
  | JArr (x :: _) => inr x
  | JArr [] => inl IndexError
  | JStr (String c _) => inr (JStr (String c EmptyString))
  | JStr EmptyString => inl IndexError
  | JObj _ => inl (KeyError (JNum 0))
  | _ => inl TypeError
  end.

(** [v.get(k, default)]. *)
Definition py_get (v : json) (k : string) (default : json) : Err json :=
  match v with
  | JObj f => inr (match dict_lookup k f with Some x => x | None => default end)
  | _ => inl AttributeError
  end.

(** Truth value of [v] in a condition. *)
Definition py_truthy (v : json) : bool :=
  match v with
  | JNull => false
  | JBool b => b
  | JNum z => negb (z =? 0)
  | JStr s => negb (String.eqb s "")
  | JArr l => match l with [] => false | _ => true end
  | JObj f => match f with [] => false | _ => true end
  end.

(** ** The world: vendor replies, observable events, process globals *)

Inductive verb : Type := GET | POST | PUT.

Inductive event : Type :=
| EvRequest (v : verb) (url : string) (bearer : json)
| EvRequestJson (v : verb) (url : string) (bearer : json) (data : json)
| EvSleep (secs : Z)
| EvPrint (text : string) (args : list json)
| EvLog (text : string) (args : list json)
| EvPresign (client_method bucket key : string) (expires_in : Z).

(** What the next outbound request meets: no reply (a network failure),
    or a status code and a body that parses as JSON or does not. *)
Inductive reply : Type :=
| NoReply
| Reply (status_code : Z) (body : option json).

Record World : Type := mkWorld {
  replies : nat -> reply;         (* replies to the requests still to come *)
  trace : list event;             (* events so far, oldest first *)
  fetch_count : nat;              (* main.py's global *)
  environ_client_id : option string;  (* FIREFLY_SERVICES_CLIENT_ID *)
  presigner : string -> string -> string -> Z -> option string
                                  (* boto3's signer; None: ClientError *)
}.

Definition emit (e : event) (w : World) : World :=
  mkWorld (replies w) (trace w ++ [e]) (fetch_count w) (environ_client_id w)
          (presigner w).

Definition next_reply (w : World) : World :=
  mkWorld (fun i => replies w (S i)) (trace w) (fetch_count w)
          (environ_client_id w) (presigner w).

Definition set_fetch_count (n : nat) (w : World) : World :=
  mkWorld (replies w) (trace w) n (environ_client_id w) (presigner w).

(** ** Outcomes and the monad of the embedded code *)

Inductive outcome (A : Type) : Type :=
| Returned (a : A)
| Raised (e : exn)
| OutOfFuel.
Arguments Returned {A} a.
Arguments Raised {A} e.
Arguments OutOfFuel {A}.

Definition IO (A : Type) : Type := World -> outcome A * World.

Definition ret {A} (a : A) : IO A := fun w => (Returned a, w).
Definition raise {A} (e : exn) : IO A := fun w => (Raised e, w).
Definition out_of_fuel {A} : IO A := fun w => (OutOfFuel, w).

Definition bind {A B} (c : IO A) (k : A -> IO B) : IO B :=
  fun w =>
    match c w with
    | (Returned a, w') => k a w'
    | (Raised e, w') => (Raised e, w')
    | (OutOfFuel, w') => (OutOfFuel, w')
    end.

Notation "x <- c1 ;; c2" := (bind c1 (fun x => c2))
  (at level 61, c1 at next level, right associativity).
Notation "' pat <- c1 ;; c2" :=
  (bind c1 (fun x => match x with pat => c2 end))
  (at level 61, pat pattern, c1 at next level, right associativity).
Notation "c1 ;; c2" := (bind c1 (fun _ => c2))
  (at level 61, right associativity).

Definition lift {A} (c : Err A) : IO A :=
  match c with
  | inl e => raise e
  | inr a => ret a
  end.

(** [try: body except <filter> as e: handler e]. *)
Definition try_except {A} (body : IO A) (catches : exn -> bool)
    (handler : exn -> IO A) : IO A :=
  fun w =>
    match body w with
    | (Raised e, w') => if catches e then handler e w' else (Raised e, w')
    | r => r
    end.

(** [while cond(s): s = body(s)], at most [fuel] iterations. *)
Fixpoint while_loop {S : Type} (fuel : nat) (cond : S -> bool)
    (body : S -> IO S) (s : S) : IO S :=
  if cond s then
    match fuel with
    | O => out_of_fuel
    | Datatypes.S fuel' => s' <- body s ;; while_loop fuel' cond body s'
    end
  else ret s.

(** A loop body that may [return] from the enclosing function. *)
Inductive ctl (S R : Type) : Type :=
| Continue (s : S)
| Return (r : R).
Arguments Continue {S R} s.
Arguments Return {S R} r.

Fixpoint while_return {S R : Type} (fuel : nat) (cond : S -> bool)
    (body : S -> IO (ctl S R)) (s : S) : IO (ctl S R) :=
  if cond s then
    match fuel with
    | O => out_of_fuel
    | Datatypes.S fuel' =>
        c <- body s ;;
        match c with
        | Continue s' => while_return fuel' cond body s'
        | Return r => ret (Return r)
        end
    end
  else ret (Continue s).

(** ** Primitive effects *)

(** [time.sleep(secs)] for an integer [secs].  CPython turns the delay
    into a signed 64-bit count of nanoseconds: it raises OverflowError when
    the seconds times [10 ^ 9] do not fit, and ValueError when the delay is
    negative.  The largest delay that fits is [(2 ^ 63 - 1) / 10 ^ 9]
    seconds: [2 ** 33] seconds fit, [2 ** 34] do not. *)
Definition max_sleep : Z := 9223372036.

Definition sleep (secs : Z) : IO unit :=
  if (max_sleep <? secs) || (secs <? - max_sleep) then raise OverflowError
  else if secs <? 0 then raise ValueError
  else fun w => (Returned tt, emit (EvSleep secs) w).

Definition print (text : string) (args : list json) : IO unit :=
  fun w => (Returned tt, emit (EvPrint text args) w).

Record Response : Type := mkResponse {
  status_code : Z;
  body : option json
}.

(** [requests.<verb>(url, headers=...)]: the request goes out, then the
    next reply is consumed. *)
Definition requests_send (v : verb) (url : string) (bearer : json) : IO Response :=
  fun w =>
    let w' := next_reply (emit (EvRequest v url bearer) w) in
    match replies w O with
    | NoReply => (Raised ConnectionError, w')
    | Reply c b => (Returned (mkResponse c b), w')
    end.

(** [requests.<verb>(url, headers=..., json=data)], where the payload is
    followed. *)
Definition requests_send_json (v : verb) (url : string) (bearer data : json)
    : IO Response :=
  fun w =>
    let w' := next_reply (emit (EvRequestJson v url bearer data) w) in
    match replies w O with
    | NoReply => (Raised ConnectionError, w')
    | Reply c b => (Returned (mkResponse c b), w')
    end.

Definition requests_get := requests_send GET.
Definition requests_post := requests_send POST.
Definition requests_put := requests_send PUT.

(** [Response.raise_for_status] of the requests library raises HTTPError
    for the client and server error codes, 400 to 599, and for no other. *)
Definition is_error_status (c : Z) : bool := (400 <=? c) && (c <? 600).

Definition raise_for_status (r : Response) : IO unit :=
  if is_error_status (status_code r) then raise (HTTPError (status_code r))
  else ret tt.

Definition response_json (r : Response) : IO json :=
  match body r with
  | Some j => ret j
  | None => raise JSONDecodeError
  end.

(** [os.environ['FIREFLY_SERVICES_CLIENT_ID']]. *)
Definition os_environ_client_id : IO string :=
  fun w =>
    match environ_client_id w with
    | Some v => (Returned v, w)
    | None => (Raised (KeyError (JStr "FIREFLY_SERVICES_CLIENT_ID")), w)
    end.

(** ** automate_workflow.py *)

Module AutomateWorkflow.

Definition check_photoshop_job_status (fuel : nat)
    (job_id access_token : string) : IO json :=
  _ <- os_environ_client_id ;;
  let url := "https://image.adobe.io/sensei/status/" ++ job_id in
  status <- while_loop fuel
    (fun status => negb (py_in_strs status ["succeeded"; "failed"]))
    (fun _ =>
       sleep 5 ;;
       response <- requests_get url (JStr access_token) ;;
       raise_for_status response ;;
       status_response <- response_json response ;;
       status <- lift (py_get status_response "status" JNull) ;;
       print "Photoshop Job Status: " [status] ;;
       ret status)
    (JStr "submitted") ;;
  if py_is "succeeded" status then
    print "Background removal completed successfully!" [] ;;
    ret JNull
  else
    print "Background removal failed." [] ;;
    ret JNull.

(** [status_response] is unbound until the first iteration, which always
    runs: [JNull] stands in for it. *)
Definition check_firefly_job_status (fuel : nat)
    (job_id access_token : string) : IO json :=
  _ <- os_environ_client_id ;;
  let url := "https://firefly-api.adobe.io/v3/status/" ++ job_id in
  ' (status, status_response) <- while_loop fuel
    (fun '(status, _) =>
       negb (py_in_strs status ["succeeded"; "failed"; "cancelled"]))
    (fun _ =>
       sleep 5 ;;
       response <- requests_get url (JStr access_token) ;;
       raise_for_status response ;;
       status_response <- response_json response ;;
       status <- lift (py_get status_response "status" JNull) ;;
       print "Firefly Job Status: " [status] ;;
       ret (status, status_response))
    (JStr "pending", JNull) ;;
  if py_is "succeeded" status then
    print "Object composite generation completed successfully!" [] ;;
    image_url <- lift (result <~ py_item status_response "result" ;;
                       outputs <~ py_item result "outputs" ;;
                       output <~ py_item0 outputs ;;
                       image <~ py_item output "image" ;;
                       py_item image "url") ;;
    print "You can access the image at: " [image_url] ;;
    ret image_url
  else
    print "Object composite generation failed." [] ;;
    ret JNull.

(** Lines 207 to 209: the status is read from the first output, and is
    left as it was when [outputs] is missing or empty. *)
Definition lightroom_extract_status (status status_response : json) : Err json :=
  outputs <~ py_get status_response "outputs" (JArr []) ;;
  if py_truthy outputs
  then output <~ py_item0 outputs ;; py_get output "status" JNull
  else inr status.

Definition check_lightroom_job_status (fuel : nat)
    (job_id access_token : string) : IO json :=
  _ <- os_environ_client_id ;;
  let url := "https://image.adobe.io/lrService/status/" ++ job_id in
  status <- while_loop fuel
    (fun status => negb (py_in_strs status ["succeeded"; "failed"]))
    (fun status =>
       sleep 5 ;;
       response <- requests_get url (JStr access_token) ;;
       raise_for_status response ;;
       status_response <- response_json response ;;
       status <- lift (lightroom_extract_status status status_response) ;;
       print "Lightroom Job Status: " [status] ;;
       ret status)
    (JStr "pending") ;;
  if py_is "succeeded" status then
    print "Auto tone completed successfully!" [] ;;
    print "You can access the image at your SIGNED_POST_URL." [] ;;
    ret JNull
  else
    print "Auto tone failed." [] ;;
    ret JNull.

(** [s.split(sep)] for a one-character separator: the segments between the
    separators, never an empty list. *)
Fixpoint py_split (sep : ascii) (s : string) : list string :=
  match s with
  | EmptyString => [EmptyString]
  | String c s' =>
      if Ascii.eqb c sep then EmptyString :: py_split sep s'
      else match py_split sep s' with
           | h :: t => String c h :: t
           | [] => [String c EmptyString]
           end
  end.

(** [href.split('/')[-1]]; [split] exists on strings only. *)
Definition last_segment (href : json) : Err string :=
  match href with
  | JStr s => inr (last (py_split "/" s) EmptyString)
  | _ => inl AttributeError
  end.

Definition extract_job_id (response : json) : Err string :=
  links <~ py_item response "_links" ;;
  self <~ py_item links "self" ;;
  href <~ py_item self "href" ;;
  last_segment href.

(** The three submitting functions: the headers need the client id, the
    payload goes out in one POST, the reply's body is printed and returned. *)
Definition remove_background (access_token : string) : IO json :=
  _ <- os_environ_client_id ;;
  response <- requests_post "https://image.adobe.io/sensei/cutout"
                            (JStr access_token) ;;
  raise_for_status response ;;
  job_response <- response_json response ;;
  print "Remove Background Job Submitted:" [job_response] ;;
  ret job_response.

Definition generate_object_composite (access_token : string) : IO json :=
  _ <- os_environ_client_id ;;
  response <- requests_post
    "https://firefly-api.adobe.io/v3/images/generate-object-composite-async"
    (JStr access_token) ;;
  raise_for_status response ;;
  job_response <- response_json response ;;
  print "Generate Object Composite Job Submitted:" [job_response] ;;
  ret job_response.

Definition auto_tone (access_token : string) (signed_input_url : json)
    : IO json :=
  _ <- os_environ_client_id ;;
  response <- requests_post "https://image.adobe.io/lrService/autoTone"
                            (JStr access_token) ;;
  raise_for_status response ;;
  job_response <- response_json response ;;
  print "Auto Tone Job Submitted:" [job_response] ;;
  ret job_response.

End AutomateWorkflow.

(** ** aws.py *)

Module Aws.

(** [s.replace(old, new)] for a non-empty [old]: occurrences are replaced
    from the left and do not overlap; [skip] counts the characters of a
    match still to be dropped. *)
Fixpoint replace_from (old new : string) (skip : nat) (s : string) : string :=
  match s with
  | EmptyString => EmptyString
  | String c s' =>
      match skip with
      | S k => replace_from old new k s'
      | O =>
          if String.prefix old s
          then new ++ replace_from old new (String.length old - 1) s'
          else String c (replace_from old new 0 s')
      end
  end.

Definition py_replace (s old new : string) : string :=
  replace_from old new 0 s.

(** [s3_client.generate_presigned_url(ClientMethod, Params, ExpiresIn)],
    the client taken as constructed: the signer of the world is its
    method. *)
Definition s3_generate_presigned_url (client_method bucket key : string)
    (expires_in : Z) : IO string :=
  fun w =>
    let w' := emit (EvPresign client_method bucket key expires_in) w in
    match presigner w client_method bucket key expires_in with
    | Some url => (Returned url, w')
    | None => (Raised ClientError, w')
    end.

Definition catch_ClientError (e : exn) : bool :=
  match e with
  | ClientError => true
  | _ => false
  end.

Definition generate_presigned_url (bucket_name key method : string)
    (expires_in : Z) : IO (string * string) :=
  try_except
    (let key := if String.eqb method "put_object"
                then "altered/" ++ key else key in
     url <- s3_generate_presigned_url method bucket_name key expires_in ;;
     ret (url, py_replace key "thumbnails/" ""))
    catch_ClientError
    (fun e =>
       (fun w => (Returned tt,
                  emit (EvLog "Couldn't get a presigned URL for client method put_object." []) w)) ;;
       raise e).

Definition default_expires_in : Z := 3600 * 12.

(** [s.endswith(suffix)]. *)
Definition py_endswith (s suffix : string) : bool :=
  let n := String.length s in
  let m := String.length suffix in
  (m <=? n)%nat && String.eqb (String.substring (n - m) m s) suffix.

(** What [s3_client.list_objects_v2(Bucket=..., Prefix=...)] answers: the
    call raises, or the response has no ["Contents"] (nothing matches), or
    it lists the keys of the matching objects in order. *)
Definition lister : Type := string -> string -> Err (option (list string)).

(** [boto3.client("s3", ...)] raises, or gives the client whose listing
    call the functions below use.  The world record carries no bucket, so
    they take the outcome of that construction as their first argument. *)
Definition client : Type := Err lister.

Definition logger_error (text : string) : IO unit :=
  fun w => (Returned tt, emit (EvLog text []) w).

Definition logger_info (text : string) : IO unit :=
  fun w => (Returned tt, emit (EvLog text []) w).

(** The client is constructed before the [try]: what that raises is not
    caught here. *)
Definition read_s3_contents (boto3_client : client)
    (bucket_name prefix : string) : IO (option (list string)) :=
  s3_client <- lift boto3_client ;;
  try_except
    (response <- lift (s3_client bucket_name prefix) ;;
     match response with
     | Some keys => ret (Some keys)
     | None => raise (KeyError (JStr "Contents"))
     end)
    (fun _ => true)
    (fun _ => logger_error "Error reading " ;; ret None).

(** The [else] of the [for] has no [break] to skip it: it runs whenever
    the loop does, that is whenever the response has ["Contents"]. *)
Definition generate_video_names (boto3_client : client)
    (bucket_name prefix : string) : IO (list string) :=
  s3_client <- lift boto3_client ;;
  response <- lift (s3_client bucket_name prefix) ;;
  match response with
  | Some keys =>
      let filenames :=
        map (fun key => last (AutomateWorkflow.py_split "/" key) EmptyString)
            (filter (fun key => py_endswith key ".mp4") keys) in
      logger_info "No objects found in bucket: " ;;
      ret filenames
  | None => ret []
  end.

End Aws.

(** ** main.py *)

Module Main.

Record Request : Type := mkRequest {
  cookies : list (string * string)
}.

Fixpoint cookies_get (k : string) (l : list (string * string)) : option string :=
  match l with
  | [] => None
  | (k', v) :: rest => if String.eqb k k' then Some v else cookies_get k rest
  end.

(** [not access_token]: the cookie is absent or empty. *)
Definition py_not (o : option string) : bool :=
  match o with
  | None => true
  | Some s => String.eqb s ""
  end.

Definition bearer_of (o : option string) : json :=
  match o with
  | None => JNull
  | Some s => JStr s
  end.

(** The four lines that open the handlers:
    [access_token = request.cookies.get("access_token")] and the 401. *)
Definition unauthorized : exn :=
  HTTPException 401 (Text "Access token is missing or expired.").

Definition access_token_guard (request : Request) : IO json :=
  let access_token := cookies_get "access_token" (cookies request) in
  if py_not access_token then raise unauthorized
  else ret (bearer_of access_token).

Definition logger_info (text : string) (args : list json) : IO unit :=
  fun w => (Returned tt, emit (EvLog text args) w).
Definition logger_error (text : string) : IO unit :=
  fun w => (Returned tt, emit (EvLog text []) w).

Definition catch_Exception (e : exn) : bool := true.

(** [requests.exceptions.RequestException] and its subclasses (the
    JSONDecodeError of [response.json()] is one since requests 2.27). *)
Definition catch_RequestException (e : exn) : bool :=
  match e with
  | HTTPError _ | ConnectionError | JSONDecodeError => true
  | _ => false
  end.

Definition fetch_image (access_token : json) (statusUrl : string) : IO json :=
  response <- requests_get statusUrl access_token ;;
  raise_for_status response ;;
  response_json response.

(** [status != "succeeded" and status != "failed"]. *)
Definition still_running (status : json) : bool :=
  negb (py_is "succeeded" status) && negb (py_is "failed" status).

(** Lines 195 to 198: top-level status first, else the first output's. *)
Definition callback_extract_status (status retrieved_image : json) : Err json :=
  top <~ py_in "status" retrieved_image ;;
  if top then py_item retrieved_image "status"
  else
    outputs <~ py_item retrieved_image "outputs" ;;
    output <~ py_item0 outputs ;;
    nested <~ py_in "status" output ;;
    if nested then py_item output "status" else inr status.

Definition success_image_callback (fuel : nat) (statusUrl : string)
    (request : Request) : IO json :=
  access_token <- access_token_guard request ;;
  r <- while_return fuel still_running
    (fun status =>
       (fun w => (Returned tt, set_fetch_count (S (fetch_count w)) w)) ;;
       retrieved_image <- fetch_image access_token statusUrl ;;
       status <- lift (callback_extract_status status retrieved_image) ;;
       if still_running status then
         sleep_time <- (fun w => (Returned (2 ^ Z.of_nat (fetch_count w)), w)) ;;
         sleep sleep_time ;;
         ret (Continue status)
       else
         logger_info "Image generation:" [retrieved_image] ;;
         ret (Return retrieved_image))
    (JStr "") ;;
  match r with
  | Return retrieved_image => ret retrieved_image
  | Continue _ => ret JNull
  end.

(** The request payloads are passed through to the vendor and are not
    tracked: a handler is its guard, its outbound requests and what it makes
    of the replies.  The one payload that is followed is that of
    /expand-image-async, which /expand-image-all-sizes fills in from its
    table of sizes. *)

Definition retrieve_access_token : IO json :=
  res <- requests_post "https://ims-na1.adobelogin.com/ims/token/v3" JNull ;;
  raise_for_status res ;;
  token_data <- response_json res ;;
  _ <- lift (py_item token_data "access_token") ;;
  _ <- lift (py_item token_data "expires_in") ;;
  _ <- lift (py_item token_data "token_type") ;;
  _ <- lift (py_item token_data "expires_in") ;;
  logger_info "Access Token Retrieved" [] ;;
  ret token_data.

Definition generate_image (request : Request) : IO json :=
  access_token <- access_token_guard request ;;
  response <- try_except
    (requests_post "https://firefly-api.adobe.io/v3/images/generate-async"
                   access_token)
    catch_Exception
    (fun e => raise (HTTPException 500 (StrOf "" e))) ;;
  logger_info "Response " [] ;;
  raise_for_status response ;;
  response_json response.

Definition generate_object_composite (request : Request) : IO json :=
  access_token <- access_token_guard request ;;
  response <- try_except
    (requests_post
       "https://firefly-api.adobe.io/v3/images/generate-object-composite-async"
       access_token)
    catch_Exception
    (fun e => logger_error "Error generating object composite: " ;;
              raise (HTTPException 500 (StrOf "" e))) ;;
  raise_for_status response ;;
  response_json response.

Definition check_image_status (job_id : string) (request : Request) : IO json :=
  access_token <- access_token_guard request ;;
  let statusUrl := "https://firefly-api.adobe.io/v3/status/" ++ job_id in
  response <- requests_get statusUrl access_token ;;
  raise_for_status response ;;
  response_json response.

Definition cancel_image_job (job_id : string) (request : Request) : IO json :=
  access_token <- access_token_guard request ;;
  let statusUrl :=
    "https://firefly-api.adobe.io/v3/status/" ++ job_id ++ "/cancel" in
  response <- requests_put statusUrl access_token ;;
  raise_for_status response ;;
  response_json response.

Definition upload_image (request : Request) (filename : string) : IO json :=
  access_token <- access_token_guard request ;;
  try_except
    (logger_info "Upload file type : " [] ;;
     response <- requests_post "https://firefly-api.adobe.io/v2/storage/image"
                               access_token ;;
     if is_error_status (status_code response) then
       logger_error "Image UploadError response: " ;;
       raise (HTTPException (status_code response)
                            (ResponseText (body response)))
     else
       firefly_response <- response_json response ;;
       ret (JObj [("filename", JStr filename);
                  ("firefly_response", firefly_response)]))
    catch_Exception
    (fun e => logger_error "Image UploadError: " ;;
              raise (HTTPException 500 (StrOf "" e))).

(** serializers.py. *)
Record ExpandImageResponse : Type := mkExpandImageResponse {
  imageId : string;
  width : Z;
  height : Z
}.

Definition expand_image_async (expand_request : ExpandImageResponse)
    (request : Request) : IO json :=
  access_token <- access_token_guard request ;;
  try_except
    (let data :=
       JObj [("image",
              JObj [("source",
                     JObj [("uploadId", JStr (imageId expand_request))])]);
             ("size", JObj [("width", JNum (width expand_request));
                            ("height", JNum (height expand_request))])] in
     response <- requests_send_json POST
       "https://firefly-api.adobe.io/v3/images/expand-async" access_token
       data ;;
     response_json response)
    catch_Exception
    (fun e => logger_error "Error submitting expand image job: " ;;
              raise (HTTPException 500 (StrOf "" e))).

Definition supported_sizes : list (Z * Z) :=
  [(2688, 1536); (1344, 756); (896, 1152); (1344, 768); (2688, 1512);
   (2304, 1792); (1152, 896); (2048, 2048); (1792, 2304); (1024, 1024)].

(** [for x in l: responses.append(f(x))]. *)
Fixpoint for_append {A} (l : list A) (f : A -> IO json) (responses : list json)
    : IO (list json) :=
  match l with
  | [] => ret responses
  | x :: rest => r <- f x ;; for_append rest f (responses ++ [r])
  end.

Definition expand_image_for_all_sizes (imageId : string) (request : Request)
    : IO json :=
  _ <- access_token_guard request ;;
  responses <- for_append supported_sizes
                 (fun size =>
                    let expand_request :=
                      mkExpandImageResponse imageId (fst size) (snd size) in
                    expand_image_async expand_request request) [] ;;
  ret (JArr responses).

(** The handlers that guard, then send one request inside
    [try: ... except <filter>: raise HTTPException(500, <literal>)]. *)
Definition guarded_call (v : verb) (url : string) (check_status : bool)
    (catches : exn -> bool) (log failure : string) (request : Request)
    : IO json :=
  access_token <- access_token_guard request ;;
  try_except
    (response <- requests_send v url access_token ;;
     (if check_status then raise_for_status response else ret tt) ;;
     response_json response)
    catches
    (fun _ => logger_error log ;; raise (HTTPException 500 (Text failure))).

Definition generate_similar_async : Request -> IO json :=
  guarded_call POST "https://firefly-api.adobe.io/v3/images/generate-similar-async"
    true catch_Exception "Error generating similar image: "
    "Failed to generate similar image".

Definition list_custom_models (limit_val : string) : Request -> IO json :=
  guarded_call GET
    ("https://firefly-api.adobe.io/v3/custom-models?sortBy=assetName&start=0&limit="
       ++ limit_val ++ "&publishedState=all")
    true catch_Exception "Error listing custom models: "
    "Failed to list custom models".

Definition generate_video_from_text : Request -> IO json :=
  guarded_call POST "https://firefly-api.adobe.io/v3/videos/generate"
    false catch_Exception "Error generating video from text: "
    "Failed to generate video from text".

Definition remove_background_photoshop_async : Request -> IO json :=
  guarded_call POST "https://image.adobe.io/v2/remove-background"
    true catch_Exception "Error removing background from image: "
    "Failed to remove background from image".

Definition get_psd_status (job_id : string) : Request -> IO json :=
  guarded_call GET ("https://image.adobe.io/pie/psdService/status/" ++ job_id)
    true catch_RequestException "Error occurred while getting PSD status: "
    "Failed to get PSD status.".

Definition get_available_voices : Request -> IO json :=
  guarded_call GET "https://audio-video-api.adobe.io/v1/voices"
    true catch_RequestException
    "Error occurred while getting available voices: "
    "Failed to get available voices.".

Definition get_available_avatars : Request -> IO json :=
  guarded_call GET "https://audio-video-api.adobe.io/v1/avatars"
    true catch_RequestException
    "Error occurred while getting available avatars: "
    "Failed to get available avatars.".

Definition generate_avatar_video : Request -> IO json :=
  guarded_call POST "https://audio-video-api.adobe.io/v1/generate-avatar"
    true catch_RequestException
    "Error occurred while generating avatar video: "
    "Failed to generate avatar video.".

Definition generate_audio_from_text : Request -> IO json :=
  guarded_call POST "https://audio-video-api.adobe.io/v1/generate-speech"
    true catch_Exception "Error generating audio: " "Failed to generate audio".

Definition dub_video : Request -> IO json :=
  guarded_call POST "https://audio-video-api.adobe.io/v1/dub"
    true catch_Exception "Error occurred while dubbing video: "
    "Failed to dub video".

Definition check_audio_video_status (job_id : string) (request : Request)
    : IO json :=
  access_token <- access_token_guard request ;;
  try_except
    (let statusUrl := "https://audio-video-api.adobe.io/v2/status/" ++ job_id in
     response <- requests_get statusUrl access_token ;;
     raise_for_status response ;;
     response_json response)
    catch_Exception
    (fun e => logger_error "Error occurred while checking audio/video status: " ;;
              raise (HTTPException 500 (StrOf "" e))).

(** In the next three handlers the guard stands inside the [try]. *)

Definition reframe_video (request : Request) : IO json :=
  try_except
    (access_token <- access_token_guard request ;;
     response <- requests_post "https://audio-video-api.adobe.io/v2/reframe"
                               access_token ;;
     raise_for_status response ;;
     response_json response)
    catch_Exception
    (fun e => logger_error "Error occurred while reframing video: " ;;
              raise (HTTPException 500 (StrOf "" e))).

Definition auto_tone (request : Request) : IO json :=
  try_except
    (access_token <- access_token_guard request ;;
     response <- requests_post "https://image.adobe.io/lrService/autoTone"
                               access_token ;;
     raise_for_status response ;;
     response_json response)
    catch_Exception
    (fun e => logger_error "Error auto tone job: " ;;
              raise (HTTPException 500
                       (StrOf "Failed to submit auto tone job. " e))).

Definition get_lightroom_status (job_id : string) (request : Request)
    : IO json :=
  try_except
    (access_token <- access_token_guard request ;;
     response <- requests_get
       ("https://image.adobe.io/lrService/status/" ++ job_id) access_token ;;
     logger_info "Lightroom Status Response " [] ;;
     raise_for_status response ;;
     response_json response)
    catch_Exception
    (fun e => logger_error "Error getting Lightroom status: " ;;
              raise (HTTPException 500
                       (StrOf "Failed to get Lightroom status. " e))).

(** /crop-image fetches a token of its own when the cookie is absent; the
    token it then sends is the whole token reply. *)
Definition crop_image (request : Request) : IO json :=
  let cookie := cookies_get "access_token" (cookies request) in
  access_token <-
    (if py_not cookie then
       token_data <- retrieve_access_token ;;
       logger_error "Access token is missing or expired." ;;
       if negb (py_truthy token_data)
       then raise (HTTPException 401 (Text "Unauthorized"))
       else logger_info "Access token retrieved" [] ;; ret token_data
     else ret (bearer_of cookie)) ;;
  try_except
    (response <- requests_post
       "https://image.adobe.io/pie/psdService/productCrop" access_token ;;
     shown <- response_json response ;;
     print "Response " [shown] ;;
     image_request <- response_json response ;;
     print "Photoshop Crop Image Job Submitted:" [image_request] ;;
     ret image_request)
    catch_RequestException
    (fun _ => print "Error occurred while cropping image: " [] ;;
              raise (HTTPException 500 (Text "Failed to crop image."))).

(** The routes of main.py that read the access-token cookie. *)
Inductive endpoint : Type :=
| GenerateImageAsync
| GenerateObjectComposite
| CompleteImageCallback (statusUrl : string)
| CheckStatus (job_id : string)
| CancelJob (job_id : string)
| ImageUpload (filename : string)
| ExpandImageAsync (expand_request : ExpandImageResponse)
| ExpandImageAllSizes (imageId : string)
| GenerateSimilarAsync
| ListCustomModels (limit_val : string)
| GenerateVideoFromText
| RemoveBackgroundAsync
| CropImage
| GetPsdStatus (job_id : string)
| AvailableVoices
| AvailableAvatars
| GenerateAvatarVideo
| GenerateAudioFromText
| DubVideo
| ReframeVideo
| CheckAudioVideoStatus (job_id : string)
| AutoTone
| LightroomStatus (job_id : string).

Definition path (e : endpoint) : string :=
  match e with
  | GenerateImageAsync => "/generate-image-async"
  | GenerateObjectComposite => "/generate-object-composite"
  | CompleteImageCallback _ => "/complete-image-callback"
  | CheckStatus _ => "/check-status"
  | CancelJob _ => "/cancel-job"
  | ImageUpload _ => "/image-upload"
  | ExpandImageAsync _ => "/expand-image-async"
  | ExpandImageAllSizes _ => "/expand-image-all-sizes"
  | GenerateSimilarAsync => "/generate-similar-async"
  | ListCustomModels _ => "/list-custom-models"
  | GenerateVideoFromText => "/generate-video-from-text"
  | RemoveBackgroundAsync => "/remove-background-async"
  | CropImage => "/crop-image"
  | GetPsdStatus _ => "/get-psd-status/{job_id}"
  | AvailableVoices => "/available-voices"
  | AvailableAvatars => "/available-avatars"
  | GenerateAvatarVideo => "/generate-avatar-video"
  | GenerateAudioFromText => "/generate-audio-from-text"
  | DubVideo => "/dub-video"
  | ReframeVideo => "/reframe-video"
  | CheckAudioVideoStatus _ => "/check-audio-video-status"
  | AutoTone => "/auto-tone"
  | LightroomStatus _ => "/lightroom-status"
  end.

Definition handler (fuel : nat) (e : endpoint) : Request -> IO json :=
  match e with
  | GenerateImageAsync => generate_image
  | GenerateObjectComposite => generate_object_composite
  | CompleteImageCallback statusUrl => success_image_callback fuel statusUrl
  | CheckStatus job_id => check_image_status job_id
  | CancelJob job_id => cancel_image_job job_id
  | ImageUpload filename => fun request => upload_image request filename
  | ExpandImageAsync expand_request => expand_image_async expand_request
  | ExpandImageAllSizes imageId => expand_image_for_all_sizes imageId
  | GenerateSimilarAsync => generate_similar_async
  | ListCustomModels limit_val => list_custom_models limit_val
  | GenerateVideoFromText => generate_video_from_text
  | RemoveBackgroundAsync => remove_background_photoshop_async
  | CropImage => crop_image
  | GetPsdStatus job_id => get_psd_status job_id
  | AvailableVoices => get_available_voices
  | AvailableAvatars => get_available_avatars
  | GenerateAvatarVideo => generate_avatar_video
  | GenerateAudioFromText => generate_audio_from_text
  | DubVideo => dub_video
  | ReframeVideo => reframe_video
  | CheckAudioVideoStatus job_id => check_audio_video_status job_id
  | AutoTone => auto_tone
  | LightroomStatus job_id => get_lightroom_status job_id
  end.

Definition get_s3_presigned_url (bucket_name key method : string)
    (request : Request) : IO json :=
  let method := if String.eqb method "put_object" then method
                else "get_object" in
  try_except
    ('(url, name) <- Aws.generate_presigned_url bucket_name key method
                       Aws.default_expires_in ;;
     ret (JObj [("url", JArr [JStr url; JStr name])]))
    catch_Exception
    (fun _ => logger_error "Error generating presigned URL: " ;;
              raise (HTTPException 500
                       (Text "Failed to generate presigned URL."))).

(** [for file in files: ...] of /get-s3-thumbnails: one URL per file,
    kept when it is not empty. *)
Fixpoint thumbnails_for (bucket_name : string) (files : list string)
    (thumbnail_urls : list json) : IO (list json) :=
  match files with
  | [] => ret thumbnail_urls
  | file :: rest =>
      '(thumbnail_url, name) <- Aws.generate_presigned_url bucket_name file
                                  "get_object" Aws.default_expires_in ;;
      thumbnails_for bucket_name rest
        (if String.eqb thumbnail_url "" then thumbnail_urls
         else (thumbnail_urls ++ [JArr [JStr thumbnail_url; JStr name]])%list)
  end.

Definition get_s3_thumbnails (boto3_client : Aws.client)
    (bucket_name prefix : string) (request : Request) : IO json :=
  try_except
    (files <- Aws.read_s3_contents boto3_client bucket_name prefix ;;
     thumbnail_urls <-
       match files with
       | Some (file :: rest) => thumbnails_for bucket_name (file :: rest) []
       | _ => ret []
       end ;;
     ret (JArr thumbnail_urls))
    catch_Exception
    (fun _ => logger_error "Error reading S3 contents: " ;;
              raise (HTTPException 500 (Text "Failed to read S3 contents."))).

Definition get_s3_video_names (boto3_client : Aws.client)
    (bucket_name prefix : string) (request : Request) : IO json :=
  try_except
    (files <- Aws.read_s3_contents boto3_client bucket_name prefix ;;
     let video_names :=
       match files with
       | Some (file :: rest) =>
           filter (fun file => Aws.py_endswith file ".mp4") (file :: rest)
       | _ => []
       end in
     ret (JArr (map JStr video_names)))
    catch_Exception
    (fun _ => logger_error "Error reading S3 contents: " ;;
              raise (HTTPException 500 (Text "Failed to read S3 contents."))).

End Main.

(** ** The four poll loops, and the words of the claims about them *)

Inductive poll : Type :=
| Photoshop (job_id access_token : string)
| Firefly (job_id access_token : string)
| Lightroom (job_id access_token : string)
| ImageCallback (statusUrl : string) (request : Main.Request).

Definition run_poll (p : poll) (fuel : nat) : IO json :=
  match p with
  | Photoshop job_id access_token =>
      AutomateWorkflow.check_photoshop_job_status fuel job_id access_token
  | Firefly job_id access_token =>
      AutomateWorkflow.check_firefly_job_status fuel job_id access_token
  | Lightroom job_id access_token =>
      AutomateWorkflow.check_lightroom_job_status fuel job_id access_token
  | ImageCallback statusUrl request =>
      Main.success_image_callback fuel statusUrl request
  end.

(** The poll gets as far as its loop: the scripts find the client id in
    the environment, the route finds the cookie. *)
Definition authorised (p : poll) (w : World) : bool :=
  match p with
  | ImageCallback _ request =>
      negb (Main.py_not (Main.cookies_get "access_token" (Main.cookies request)))
  | _ => match environ_client_id w with Some _ => true | None => false end
  end.

(** The GET a poll sends on every iteration. *)
Definition poll_get (p : poll) : event :=
  match p with
  | Photoshop job_id access_token =>
      EvRequest GET ("https://image.adobe.io/sensei/status/" ++ job_id)
                (JStr access_token)
  | Firefly job_id access_token =>
      EvRequest GET ("https://firefly-api.adobe.io/v3/status/" ++ job_id)
                (JStr access_token)
  | Lightroom job_id access_token =>
      EvRequest GET ("https://image.adobe.io/lrService/status/" ++ job_id)
                (JStr access_token)
  | ImageCallback statusUrl request =>
      EvRequest GET statusUrl
        (Main.bearer_of (Main.cookies_get "access_token" (Main.cookies request)))
  end.

Definition is_get (e : event) : bool :=
  match e with
  | EvRequest GET _ _ | EvRequestJson GET _ _ _ => true
  | _ => false
  end.

Definition is_request (e : event) : bool :=
  match e with
  | EvRequest _ _ _ | EvRequestJson _ _ _ _ => true
  | _ => false
  end.

Definition is_timing (e : event) : bool :=
  match e with
  | EvRequest _ _ _ | EvRequestJson _ _ _ _ | EvSleep _ => true
  | _ => false
  end.

(** Number of GET requests in a trace. *)
Definition gets (tr : list event) : nat := List.length (filter is_get tr).

(** The requests and the sleeps of a trace, in order. *)
Definition timing (tr : list event) : list event := filter is_timing tr.

(** The body a poll iteration gets to read: the reply came, its code does
    not make [raise_for_status] raise, and it parses. *)
Definition good_body (r : reply) : option json :=
  match r with
  | Reply c (Some b) => if is_error_status c then None else Some b
  | _ => None
  end.

(** A status field at the top level of the body. *)
Definition top_status (r : reply) : option json :=
  match good_body r with
  | Some (JObj f) => dict_lookup "status" f
  | _ => None
  end.

(** A status field in the first element of [outputs]. *)
Definition nested_status (r : reply) : option json :=
  match good_body r with
  | Some (JObj f) =>
      match dict_lookup "outputs" f with
      | Some (JArr (JObj o :: _)) => dict_lookup "status" o
      | _ => None
      end
  | _ => None
  end.

(** The status a reply carries, in the shape the poll expects: top level
    for Photoshop and Firefly, nested for Lightroom, and for the image
    callback top level or, failing that, nested. *)
Definition reported (p : poll) (r : reply) : option json :=
  match p with
  | Photoshop _ _ | Firefly _ _ => top_status r
  | Lightroom _ _ => nested_status r
  | ImageCallback _ _ =>
      match top_status r with
      | Some s => Some s
      | None => nested_status r
      end
  end.

Definition one_of (l : list string) (s : json) : bool := py_in_strs s l.

(** The three statuses the specification calls terminal. *)
Definition spec_terminal : json -> bool :=
  one_of ["succeeded"; "failed"; "cancelled"].

(** The statuses at which the loop of [p] is left. *)
Definition terminal (p : poll) (s : json) : bool :=
  match p with
  | Firefly _ _ => one_of ["succeeded"; "failed"; "cancelled"] s
  | _ => one_of ["succeeded"; "failed"] s
  end.

(** The status extractor of each loop, given the status held so far. *)
Definition extract (p : poll) (status body : json) : Err json :=
  match p with
  | Photoshop _ _ | Firefly _ _ => py_get body "status" JNull
  | Lightroom _ _ => AutomateWorkflow.lightroom_extract_status status body
  | ImageCallback _ _ => Main.callback_extract_status status body
  end.

(** The status a poll holds after reading reply [r], if it gets that far. *)
Definition observed (p : poll) (status : json) (r : reply) : option json :=
  match good_body r with
  | Some b => match extract p status b with
              | inr s => Some s
              | inl _ => None
              end
  | None => None
  end.

(** Reply [r] sends a poll that is still running round the loop again. *)
Definition keeps_polling (p : poll) (r : reply) : Prop :=
  forall status, terminal p status = false ->
    exists s, observed p status r = Some s /\ terminal p s = false.

(** What the function makes of the terminal status [s] read in body [b]. *)
Definition conclusion (p : poll) (s b : json) : outcome json :=
  match p with
  | Photoshop _ _ | Lightroom _ _ => Returned JNull
  | Firefly _ _ =>
      if py_is "succeeded" s then
        match (result <~ py_item b "result" ;;
               outputs <~ py_item result "outputs" ;;
               output <~ py_item0 outputs ;;
               image <~ py_item output "image" ;;
               py_item image "url") with
        | inr url => Returned url
        | inl e => Raised e
        end
      else Returned JNull
  | ImageCallback _ _ => Returned b
  end.

(** The requests and sleeps of [n] full iterations, the global counter
    standing at [c] when the poll starts. *)
Definition rounds (p : poll) (c n : nat) : list event :=
  match p with
  | ImageCallback _ _ =>
      flat_map (fun k => [poll_get p; EvSleep (2 ^ Z.of_nat (c + k))])
               (seq 1 n)
  | _ => flat_map (fun _ => [EvSleep 5; poll_get p]) (seq 1 n)
  end.

(** The last, terminal iteration. *)
Definition last_round (p : poll) : list event :=
  match p with
  | ImageCallback _ _ => [poll_get p]
  | _ => [EvSleep 5; poll_get p]
  end.

(** [w'] is [w] after [n] full iterations of poll [p]. *)
Definition advanced (p : poll) (n : nat) (w w' : World) : Prop :=
  (forall i, replies w' i = replies w (n + i)%nat) /\
  gets (trace w') = (gets (trace w) + n)%nat /\
  timing (trace w') = (timing (trace w) ++ rounds p (fetch_count w) n)%list /\
  fetch_count w' = match p with
                   | ImageCallback _ _ => (fetch_count w + n)%nat
                   | _ => fetch_count w
                   end /\
  environ_client_id w' = environ_client_id w.

(** The world after one iteration of a script's loop that printed [s]. *)
Definition after_round (p : poll) (label : string) (s : json) (w : World)
    : World :=
  emit (EvPrint label [s]) (next_reply (emit (poll_get p) (emit (EvSleep 5) w))).

(** The world after the GET of an iteration of the image callback. *)
Definition after_fetch (p : poll) (w : World) : World :=
  next_reply (emit (poll_get p) (set_fetch_count (S (fetch_count w)) w)).

(** [w'] is [w] after a poll that ended on its [S n]-th iteration. *)
Definition finished (p : poll) (n : nat) (w w' : World) : Prop :=
  gets (trace w') = (gets (trace w) + S n)%nat /\
  timing (trace w') =
    (timing (trace w) ++ rounds p (fetch_count w) n ++ last_round p)%list /\
  fetch_count w' = match p with
                   | ImageCallback _ _ => (fetch_count w + S n)%nat
                   | _ => fetch_count w
                   end.

Definition fixed_delay (p : poll) : Prop :=
  match p with
  | ImageCallback _ _ => False
  | _ => True
  end.

(** The delays of [n] full iterations of a poll that starts in [w] are all
    delays [time.sleep] accepts: the five seconds of the scripts always
    are, and the [2 ** fetch_count] of the image callback is up to
    [2 ** 33]. *)
Definition sleeps_fit (p : poll) (w : World) (n : nat) : Prop :=
  match p with
  | ImageCallback _ _ => (n = 0 \/ fetch_count w + n <= 33)%nat
  | _ => True
  end.

(** What a poll adds to the trace after the GET whose reply, with body
    [b], says failed. *)
Definition failure_events (p : poll) (b : json) : list event :=
  match p with
  | Photoshop _ _ =>
      [EvPrint "Photoshop Job Status: " [JStr "failed"];
       EvPrint "Background removal failed." []]
  | Firefly _ _ =>
      [EvPrint "Firefly Job Status: " [JStr "failed"];
       EvPrint "Object composite generation failed." []]
  | Lightroom _ _ =>
      [EvPrint "Lightroom Job Status: " [JStr "failed"];
       EvPrint "Auto tone failed." []]
  | ImageCallback _ _ => [EvLog "Image generation:" [b]]
  end.

(** The statuses at which the loop of [p] is to go round again.  For the
    image callback the status cancelled is left out of both [terminal] and
    [non_terminal]. *)
Definition non_terminal (p : poll) (s : json) : bool :=
  match p with
  | ImageCallback _ _ => negb (spec_terminal s)
  | _ => negb (terminal p s)
  end.

(** A body the poll can read but in which it finds no status. *)
Definition status_missing (p : poll) (r : reply) : bool :=
  match good_body r with
  | Some (JObj f) =>
      match p with
      | Photoshop _ _ | Firefly _ _ =>
          match dict_lookup "status" f with None => true | Some _ => false end
      | Lightroom _ _ =>
          match dict_lookup "outputs" f with
          | None | Some (JArr []) => true
          | Some (JArr (JObj o :: _)) =>
              match dict_lookup "status" o with
              | None => true
              | Some _ => false
              end
          | _ => false
          end
      | ImageCallback _ _ =>
          match dict_lookup "status" f, dict_lookup "outputs" f with
          | None, Some (JArr (JObj o :: _)) =>
              match dict_lookup "status" o with
              | None => true
              | Some _ => false
              end
          | _, _ => false
          end
      end
  | _ => false
  end.

Definition non_2xx (c : Z) : bool := negb ((200 <=? c) && (c <? 300)).

(** The loops that look for the status under [outputs]. *)
Definition reads_nested (p : poll) : bool :=
  match p with
  | Lightroom _ _ | ImageCallback _ _ => true
  | _ => false
  end.

(** What a poll adds to the trace when its first reply, with body [b],
    says succeeded. *)
Definition success_events (p : poll) (b : json) : list event :=
  match p with
  | Photoshop _ _ =>
      [EvSleep 5; poll_get p;
       EvPrint "Photoshop Job Status: " [JStr "succeeded"];
       EvPrint "Background removal completed successfully!" []]
  | Firefly _ _ =>
      [EvSleep 5; poll_get p;
       EvPrint "Firefly Job Status: " [JStr "succeeded"];
       EvPrint "Object composite generation completed successfully!" []]
  | Lightroom _ _ =>
      [EvSleep 5; poll_get p;
       EvPrint "Lightroom Job Status: " [JStr "succeeded"];
       EvPrint "Auto tone completed successfully!" [];
       EvPrint "You can access the image at your SIGNED_POST_URL." []]
  | ImageCallback _ _ =>
      [poll_get p; EvLog "Image generation:" [b]]
  end.

(** The routes whose handler opens with the guard, outside any [try]. *)
Definition guard_first (e : Main.endpoint) : bool :=
  match e with
  | Main.CropImage | Main.ReframeVideo | Main.AutoTone
  | Main.LightroomStatus _ => false
  | _ => true
  end.

(** The calls to the S3 signer in a trace. *)
Definition presigns (tr : list event) : list event :=
  filter (fun e => match e with EvPresign _ _ _ _ => true | _ => false end) tr.

(** The outbound HTTP requests in a trace. *)
Definition requests_sent (tr : list event) : list event := filter is_request tr.

(** A computation never takes a GET back, and one that sends one more. *)
Definition grows {A : Type} (m : IO A) : Prop :=
  forall w, (gets (trace w) <= gets (trace (snd (m w))))%nat.

Definition sends_get {A : Type} (m : IO A) : Prop :=
  forall w, (gets (trace w) + 1 <= gets (trace (snd (m w))))%nat.

(** ** Words for the routes *)

(** The cookie is there and not empty. *)
Definition has_token (request : Main.Request) : bool :=
  negb (Main.py_not (Main.cookies_get "access_token" (Main.cookies request))).

Definition token_of (request : Main.Request) : json :=
  Main.bearer_of (Main.cookies_get "access_token" (Main.cookies request)).

(** The routes whose whole body, or all of it after the guard, stands in a
    [try] that turns what is raised into an HTTPException. *)
Definition wraps_errors (e : Main.endpoint) : bool :=
  match e with
  | Main.GenerateImageAsync | Main.GenerateObjectComposite
  | Main.CompleteImageCallback _ | Main.CheckStatus _ | Main.CancelJob _
  | Main.CropImage => false
  | _ => true
  end.

(** The routes that call [raise_for_status] outside any [try]. *)
Definition lets_errors_through (e : Main.endpoint) : bool :=
  match e with
  | Main.GenerateImageAsync | Main.GenerateObjectComposite
  | Main.CheckStatus _ | Main.CancelJob _ => true
  | _ => false
  end.

(** The routes that never look at the status code of the reply. *)
Definition ignores_status (e : Main.endpoint) : bool :=
  match e with
  | Main.ExpandImageAsync _ | Main.GenerateVideoFromText => true
  | _ => false
  end.

(** An outcome that is a result, or an HTTPException with code 401 or 500. *)
Definition tidy_outcome {A : Type} (o : outcome A) : Prop :=
  match o with
  | Returned _ => True
  | Raised (HTTPException c _) => c = 401 \/ c = 500
  | _ => False
  end.

Definition tidy {A : Type} (m : IO A) : Prop :=
  forall w, tidy_outcome (fst (m w)).

Definition token_url : string := "https://ims-na1.adobelogin.com/ims/token/v3".

Definition crop_url : string :=
  "https://image.adobe.io/pie/psdService/productCrop".

Definition expand_url : string :=
  "https://firefly-api.adobe.io/v3/images/expand-async".

(** The payload of an expand request for an uploaded image and a size. *)
Definition expand_payload (imageId : string) (size : Z * Z) : json :=
  JObj [("image", JObj [("source", JObj [("uploadId", JStr imageId)])]);
        ("size", JObj [("width", JNum (fst size));
                       ("height", JNum (snd size))])].

(** ** Words for the scripts and the S3 routes *)

Fixpoint no_slash (s : string) : bool :=
  match s with
  | EmptyString => true
  | String c s' => negb (Ascii.eqb c "/") && no_slash s'
  end.

(** The exception a poll iteration meets before it can read a body: no
    reply at all, or a reply that is no error and does not parse. *)
Definition unreadable (r : reply) : option exn :=
  match r with
  | NoReply => Some ConnectionError
  | Reply c None => if is_error_status c then None else Some JSONDecodeError
  | Reply _ (Some _) => None
  end.

(** The next poll starts where the poll that ended on its [S n]-th
    iteration stopped reading, in the same environment. *)
Definition handed_on (n : nat) (w w' : World) : Prop :=
  (forall i, replies w' i = replies w (S n + i)%nat) /\
  environ_client_id w' = environ_client_id w.

(** The keys a listing yields, none when it fails or has no contents. *)
Definition listed_keys (listing : Err (option (list string))) : list string :=
  match listing with
  | inr (Some keys) => keys
  | _ => []
  end.

Definition is_mp4 (key : string) : bool := Aws.py_endswith key ".mp4".

Definition base_name (key : string) : string :=
  last (AutomateWorkflow.py_split "/" key) EmptyString.

(** A bucket with three objects under any prefix. *)
Definition sample_lister : Aws.lister :=
  fun _ _ => inr (Some ["videos/a.mp4"; "videos/notes.txt"; "b.mp4"]).

(** A signer that answers every request. *)
Definition signing (w : World) : World :=
  mkWorld (replies w) (trace w) (fetch_count w) (environ_client_id w)
          (fun m b k _ => Some ("https://s3/" ++ b ++ "/" ++ k ++ "?" ++ m)).

Definition self_link (href : string) : json :=
  JObj [("_links", JObj [("self", JObj [("href", JStr href)])])].

(** ** Sample worlds and requests *)

Definition status_body (s : string) : json := JObj [("status", JStr s)].

Definition nested_body (s : string) : json :=
  JObj [("outputs", JArr [JObj [("status", JStr s)]])].

Definition ok (b : json) : reply := Reply 200 (Some b).

(** A fresh process whose vendor sends [l], then nothing. *)
Definition serving (l : list reply) : World :=
  mkWorld (fun i => nth i l NoReply) [] 0 (Some "client-id")
          (fun _ _ _ _ => None).

(** A fresh process whose vendor sends [r] for ever. *)
Definition always (r : reply) : World :=
  mkWorld (fun _ => r) [] 0 (Some "client-id") (fun _ _ _ _ => None).

Definition three_pending_then_failed : World :=
  serving [ok (status_body "pending"); ok (status_body "pending");
           ok (status_body "pending"); ok (status_body "failed")].

(** A terminal Firefly body with its image. *)
Definition composite_done (url : string) : json :=
  JObj [("status", JStr "succeeded");
        ("result",
         JObj [("outputs", JArr [JObj [("image", JObj [("url", JStr url)])]])])].

Definition with_token : Main.Request :=
  Main.mkRequest [("access_token", "token")].

Definition no_cookie : Main.Request := Main.mkRequest [].

(** * Facts *)

(** ** Traces *)

Lemma gets_app (a b : list event) :
  gets (a ++ b)%list = (gets a + gets b)%nat.
Proof. unfold gets. now rewrite filter_app, length_app. Qed.

Lemma timing_app (a b : list event) :
  timing (a ++ b)%list = (timing a ++ timing b)%list.
Proof. apply filter_app. Qed.

Lemma rounds_S (p : poll) (c n : nat) :
  rounds p c (S n) = (rounds p c n ++ rounds p (c + n) 1)%list.
Proof.
  unfold rounds.
  destruct p; rewrite seq_S, flat_map_app; simpl; try reflexivity.
  now replace (c + n + 1)%nat with (c + S n)%nat by lia.
Qed.

Lemma advanced_refl (p : poll) (w : World) : advanced p 0 w w.
Proof.
  unfold advanced. repeat split.
  - now rewrite Nat.add_0_r.
  - destruct p; simpl; now rewrite app_nil_r.
  - destruct p; auto using Nat.add_0_r.
Qed.

Lemma advanced_step (p : poll) (n : nat) (w w1 w2 : World) :
  advanced p n w w1 -> advanced p 1 w1 w2 -> advanced p (S n) w w2.
Proof.
  intros (R1 & G1 & T1 & F1 & E1) (R2 & G2 & T2 & F2 & E2).
  unfold advanced. repeat split.
  - intro i. rewrite R2, R1. f_equal. lia.
  - lia.
  - rewrite T2, T1, (rounds_S p (fetch_count w) n), <- app_assoc.
    do 2 f_equal.
    destruct p; try reflexivity. now rewrite F1.
  - destruct p; try congruence. lia.
  - congruence.
Qed.

(** ** Statuses *)

Lemma good_body_inv (r : reply) (b : json) :
  good_body r = Some b ->
  exists c, r = Reply c (Some b) /\ is_error_status c = false.
Proof.
  destruct r as [|c [b'|]]; simpl; try discriminate.
  destruct (is_error_status c) eqn:E; try discriminate.
  intros [= ->]. eauto.
Qed.

Lemma still_running_terminal (s : json) :
  Main.still_running s = negb (one_of ["succeeded"; "failed"] s).
Proof.
  unfold Main.still_running, one_of, py_in_strs. simpl.
  now rewrite orb_false_r, negb_orb.
Qed.

(** A reported status is the one every extractor run reads. *)
Lemma reported_observed (p : poll) (r : reply) (s status : json) :
  reported p r = Some s -> observed p status r = Some s.
Proof.
  unfold reported, observed, top_status, nested_status, extract.
  destruct (good_body r) as [b|]; [|destruct p; discriminate].
  destruct p; destruct b as [| | | | |f]; try discriminate; simpl.
  - now intros ->.
  - now intros ->.
  - unfold AutomateWorkflow.lightroom_extract_status. simpl.
    destruct (dict_lookup "outputs" f) as [[| | | |[|[| | | | |o] ?]|]|];
      try discriminate. simpl. now intros ->.
  - unfold Main.callback_extract_status. simpl.
    destruct (dict_lookup "status" f) as [t|]; simpl.
    + now intros [= ->].
    + destruct (dict_lookup "outputs" f) as [[| | | |[|[| | | | |o] ?]|]|];
        try discriminate. simpl. now intros ->.
Qed.

(** ** Delays that [time.sleep] accepts, and delays it does not *)

Lemma max_sleep_nanoseconds : max_sleep = (2 ^ 63 - 1) / 10 ^ 9.
Proof. reflexivity. Qed.

Lemma sleep_five (w : World) : sleep 5 w = (Returned tt, emit (EvSleep 5) w).
Proof. reflexivity. Qed.

Lemma sleep_fits (k : nat) (w : World) :
  (k <= 33)%nat ->
  sleep (2 ^ Z.of_nat k) w = (Returned tt, emit (EvSleep (2 ^ Z.of_nat k)) w).
Proof.
  intro H. unfold sleep.
  assert (P : 0 < 2 ^ Z.of_nat k) by (apply Z.pow_pos_nonneg; lia).
  assert (Q : 2 ^ Z.of_nat k <= 2 ^ 33) by (apply Z.pow_le_mono_r; lia).
  change (2 ^ 33) with 8589934592 in Q.
  assert (M : max_sleep = 9223372036) by reflexivity.
  rewrite (proj2 (Z.ltb_ge max_sleep _)) by lia.
  rewrite (proj2 (Z.ltb_ge _ (- max_sleep))) by lia.
  rewrite (proj2 (Z.ltb_ge _ 0)) by lia. reflexivity.
Qed.

Lemma sleep_overflows (k : nat) (w : World) :
  (33 < k)%nat -> sleep (2 ^ Z.of_nat k) w = (Raised OverflowError, w).
Proof.
  intro H. unfold sleep.
  assert (Q : 2 ^ 34 <= 2 ^ Z.of_nat k) by (apply Z.pow_le_mono_r; lia).
  change (2 ^ 34) with 17179869184 in Q.
  assert (M : max_sleep = 9223372036) by reflexivity.
  rewrite (proj2 (Z.ltb_lt max_sleep _)) by lia. reflexivity.
Qed.

(** ** GET requests only accumulate *)

Lemma gets_emit (e : event) (w : World) :
  gets (trace (emit e w)) = (gets (trace w) + gets [e])%nat.
Proof. apply gets_app. Qed.

Lemma grows_ret {A} (a : A) : grows (ret a).
Proof. intro w. simpl. lia. Qed.

Lemma grows_raise {A} (e : exn) : grows (@raise A e).
Proof. intro w. simpl. lia. Qed.

Lemma grows_lift {A} (c : Err A) : grows (lift c).
Proof. destruct c; [apply grows_raise|apply grows_ret]. Qed.

Lemma grows_sleep (secs : Z) : grows (sleep secs).
Proof.
  intro w. unfold sleep.
  destruct (_ || _); [simpl; lia|]. destruct (secs <? 0); [simpl; lia|].
  cbn [snd]. rewrite gets_emit. simpl. lia.
Qed.

Lemma grows_print (text : string) (args : list json) : grows (print text args).
Proof. intro w. unfold print. cbn [snd]. rewrite gets_emit. lia. Qed.

Lemma grows_logger_info (text : string) (args : list json) :
  grows (Main.logger_info text args).
Proof.
  intro w. unfold Main.logger_info. cbn [snd]. rewrite gets_emit. lia.
Qed.

Lemma sends_get_requests_get (url : string) (bearer : json) :
  sends_get (requests_get url bearer).
Proof.
  intro w. unfold requests_get, requests_send.
  destruct (replies w 0); cbn [snd next_reply trace]; rewrite gets_emit;
    change (gets [EvRequest GET url bearer]) with 1%nat; lia.
Qed.

Lemma grows_raise_for_status (r : Response) : grows (raise_for_status r).
Proof.
  unfold raise_for_status.
  destruct (is_error_status _); [apply grows_raise|apply grows_ret].
Qed.

Lemma grows_response_json (r : Response) : grows (response_json r).
Proof.
  unfold response_json. destruct (body r); [apply grows_ret|apply grows_raise].
Qed.

Lemma grows_bind {A B} (m : IO A) (k : A -> IO B) :
  grows m -> (forall a, grows (k a)) -> grows (bind m k).
Proof.
  intros M K w. unfold bind. specialize (M w).
  destruct (m w) as [[a|e|] w1]; simpl in *; auto.
  specialize (K a w1). lia.
Qed.

Lemma sends_get_grows {A} (m : IO A) : sends_get m -> grows m.
Proof. intros M w. specialize (M w). lia. Qed.

Lemma sends_get_bind {A B} (m : IO A) (k : A -> IO B) :
  sends_get m -> (forall a, grows (k a)) -> sends_get (bind m k).
Proof.
  intros M K w. unfold bind. specialize (M w).
  destruct (m w) as [[a|e|] w1]; simpl in *; auto.
  specialize (K a w1). lia.
Qed.

(** After a step that always returns and sends nothing. *)
Lemma sends_get_after {A B} (m : IO A) (k : A -> IO B) :
  (forall w, exists a w', m w = (Returned a, w') /\
                          gets (trace w') = gets (trace w)) ->
  (forall a, sends_get (k a)) -> sends_get (bind m k).
Proof.
  intros M K w. unfold bind. destruct (M w) as (a & w1 & E & G).
  rewrite E. specialize (K a w1). lia.
Qed.

Lemma grows_while_loop {St} (cond : St -> bool) (body : St -> IO St) fuel :
  (forall st, grows (body st)) ->
  forall st, grows (while_loop fuel cond body st).
Proof.
  intro B. induction fuel as [|fuel IH]; intro st; simpl;
    destruct (cond st); try apply grows_ret.
  - intro w. simpl. lia.
  - apply grows_bind; auto.
Qed.

Lemma grows_while_return {St R} (cond : St -> bool)
    (body : St -> IO (ctl St R)) fuel :
  (forall st, grows (body st)) ->
  forall st, grows (while_return fuel cond body st).
Proof.
  intro B. induction fuel as [|fuel IH]; intro st; simpl;
    destruct (cond st); try apply grows_ret.
  - intro w. simpl. lia.
  - apply grows_bind; auto. intros [s'|r]; auto using grows_ret.
Qed.

Lemma gets_after_bind {A B} (m : IO A) (k : A -> IO B) (w : World) (x : nat) :
  (forall a, grows (k a)) ->
  (x <= gets (trace (snd (m w))))%nat ->
  (x <= gets (trace (snd (bind m k w))))%nat.
Proof.
  intros K X. unfold bind.
  destruct (m w) as [[a|e|] w1]; simpl in *; auto.
  specialize (K a w1). lia.
Qed.

(** Goals [grows m] and [sends_get m] for code built from the primitives. *)
Ltac io_grows :=
  repeat first
    [ apply grows_ret | apply grows_raise | apply grows_lift
    | apply grows_sleep | apply grows_print | apply grows_logger_info
    | apply grows_raise_for_status | apply grows_response_json
    | apply sends_get_grows; apply sends_get_requests_get
    | apply grows_bind; [|intro]
    | match goal with
      | |- grows (if ?c then _ else _) => destruct c
      | |- grows (match ?c with _ => _ end) => destruct c
      end
    | intros ?; simpl; lia ].

(** ** The loop combinator *)

Section WhileLoop.
Context {St : Type} (cond : St -> bool) (body : St -> IO St).

Lemma while_loop_exit fuel st w :
  cond st = false -> while_loop fuel cond body st w = (Returned st, w).
Proof. intros H. destruct fuel; simpl; now rewrite H. Qed.

Lemma while_loop_next fuel st w st' w' :
  cond st = true -> body st w = (Returned st', w') ->
  while_loop (S fuel) cond body st w = while_loop fuel cond body st' w'.
Proof. intros H B. simpl. rewrite H. unfold bind. now rewrite B. Qed.

Lemma while_loop_raise fuel st w e w' :
  cond st = true -> body st w = (Raised e, w') ->
  while_loop (S fuel) cond body st w = (Raised e, w').
Proof. intros H B. simpl. rewrite H. unfold bind. now rewrite B. Qed.
End WhileLoop.

(** ** The loops of the scripts: sleep five seconds, GET, read, print *)

Lemma after_round_advanced (p : poll) (label : string) (w : World) (s : json) :
  fixed_delay p -> advanced p 1 w (after_round p label s w).
Proof.
  intro P. unfold advanced, after_round. simpl. repeat split.
  - unfold gets. rewrite !filter_app, !length_app.
    destruct p; simpl; lia.
  - unfold timing. rewrite !filter_app, <- !app_assoc.
    destruct p; try (exfalso; exact P); reflexivity.
  - destruct p; try (exfalso; exact P); reflexivity.
Qed.

Lemma observed_extract (p : poll) (status : json) (r : reply) (s b : json) :
  good_body r = Some b -> observed p status r = Some s ->
  extract p status b = inr s.
Proof.
  unfold observed. intros ->.
  destruct (extract p status b); now intros [= ->].
Qed.

Section FixedDelay.
Context {St : Type}.
Variables (p : poll) (label : string).
Variables (status_of : St -> json) (make : json -> json -> St).
Variables (cond : St -> bool) (body : St -> IO St).

Hypothesis p_fixed : fixed_delay p.
Hypothesis cond_spec : forall st, cond st = negb (terminal p (status_of st)).
Hypothesis status_of_make : forall s b, status_of (make s b) = s.
Hypothesis body_reads : forall st w b s,
  good_body (replies w 0) = Some b ->
  extract p (status_of st) b = inr s ->
  body st w = (Returned (make s b), after_round p label s w).
Hypothesis body_raises : forall st w c b,
  replies w 0 = Reply c b -> is_error_status c = true ->
  body st w = (Raised (HTTPError c),
               next_reply (emit (poll_get p) (emit (EvSleep 5) w))).

Lemma fixed_prefix n : forall st w,
  cond st = true ->
  (forall i, (i < n)%nat -> keeps_polling p (replies w i)) ->
  exists st' w',
    (forall fuel, while_loop (n + fuel) cond body st w
                  = while_loop fuel cond body st' w') /\
    cond st' = true /\ advanced p n w w'.
Proof.
  induction n as [|n IH]; intros st w C K.
  - exists st, w. auto using advanced_refl.
  - destruct (IH st w C) as (st1 & w1 & L & C1 & A); [auto with arith|].
    assert (T1 : terminal p (status_of st1) = false).
    { rewrite cond_spec in C1. now destruct (terminal p (status_of st1)). }
    destruct (K n (Nat.lt_succ_diag_r n) _ T1) as (s & O & T).
    destruct A as (R & A).
    rewrite <- (Nat.add_0_r n), <- R in O.
    unfold observed in O.
    destruct (good_body (replies w1 0)) as [b|] eqn:G; [|discriminate].
    destruct (extract p (status_of st1) b) as [|s'] eqn:X; [discriminate|].
    injection O as ->.
    exists (make s b), (after_round p label s w1). split; [|split].
    + intro fuel. replace (S n + fuel)%nat with (n + S fuel)%nat by lia.
      rewrite L. apply while_loop_next; auto.
    + now rewrite cond_spec, status_of_make, T.
    + eapply advanced_step;
        [split; eauto | now apply after_round_advanced].
Qed.

Lemma fixed_completes n st w s b fuel :
  cond st = true ->
  (forall i, (i < n)%nat -> keeps_polling p (replies w i)) ->
  good_body (replies w n) = Some b ->
  (forall status, observed p status (replies w n) = Some s) ->
  terminal p s = true ->
  (n < fuel)%nat ->
  exists w1,
    while_loop fuel cond body st w
      = (Returned (make s b), after_round p label s w1) /\
    advanced p n w w1.
Proof.
  intros C K G O T F.
  destruct (fixed_prefix n st w C K) as (st1 & w1 & L & C1 & A).
  exists w1. split; [|exact A].
  replace fuel with (n + S (fuel - S n))%nat by lia.
  rewrite L.
  destruct A as (R & _). rewrite <- (Nat.add_0_r n), <- R in G, O.
  erewrite while_loop_next; eauto using observed_extract.
  apply while_loop_exit. now rewrite cond_spec, status_of_make, T.
Qed.

Lemma fixed_aborts n st w c b fuel :
  cond st = true ->
  (forall i, (i < n)%nat -> keeps_polling p (replies w i)) ->
  replies w n = Reply c b -> is_error_status c = true ->
  (n < fuel)%nat ->
  exists w1,
    while_loop fuel cond body st w
      = (Raised (HTTPError c),
         next_reply (emit (poll_get p) (emit (EvSleep 5) w1))) /\
    advanced p n w w1.
Proof.
  intros C K G E F.
  destruct (fixed_prefix n st w C K) as (st1 & w1 & L & C1 & A).
  exists w1. split; [|exact A].
  replace fuel with (n + S (fuel - S n))%nat by lia.
  rewrite L.
  destruct A as (R & _). rewrite <- (Nat.add_0_r n), <- R in G.
  eapply while_loop_raise; eauto.
Qed.

Lemma fixed_never fuel : forall st w,
  cond st = true ->
  (forall i, (i < fuel)%nat -> keeps_polling p (replies w i)) ->
  exists w', while_loop fuel cond body st w = (OutOfFuel, w') /\
             advanced p fuel w w'.
Proof.
  intros st w C K.
  destruct (fixed_prefix fuel st w C K) as (st1 & w1 & L & C1 & A).
  exists w1. split; [|exact A].
  rewrite <- (Nat.add_0_r fuel) at 1. rewrite L. simpl. now rewrite C1.
Qed.
Hypothesis body_sends : forall st, sends_get (body st).

Lemma fixed_polls_again st w fuel :
  cond st = true ->
  keeps_polling p (replies w 0) ->
  (2 <= fuel)%nat ->
  (gets (trace w) + 2 <= gets (trace (snd (while_loop fuel cond body st w))))%nat.
Proof.
  intros C K F.
  destruct (fixed_prefix 1 st w C) as (st1 & w1 & L & C1 & (_ & G & _)).
  { intros i Li. now replace i with 0%nat by lia. }
  replace fuel with (1 + S (fuel - 2))%nat by lia. rewrite L.
  simpl. rewrite C1.
  pose proof (sends_get_bind (body st1)
                (fun s' => while_loop (fuel - 2) cond body s')
                (body_sends st1)
                (grows_while_loop cond body (fuel - 2)
                   (fun st' => sends_get_grows _ (body_sends st'))) w1).
  lia.
Qed.
End FixedDelay.

(** ** The loop of the image callback: count, GET, read, sleep or return *)

Section Backoff.
Variables (statusUrl : string) (request : Main.Request).
Let p := ImageCallback statusUrl request.
Variables (cond : json -> bool) (body : json -> IO (ctl json json)).

Hypothesis cond_spec : forall st, cond st = negb (terminal p st).
Hypothesis body_continues : forall st w b s,
  good_body (replies w 0) = Some b -> extract p st b = inr s ->
  terminal p s = false ->
  (S (fetch_count w) <= 33)%nat ->
  body st w = (Returned (Continue s),
               emit (EvSleep (2 ^ Z.of_nat (S (fetch_count w))))
                    (after_fetch p w)).
Hypothesis body_returns : forall st w b s,
  good_body (replies w 0) = Some b -> extract p st b = inr s ->
  terminal p s = true ->
  body st w = (Returned (Return b),
               emit (EvLog "Image generation:" [b]) (after_fetch p w)).
Hypothesis body_raises : forall st w c b,
  replies w 0 = Reply c b -> is_error_status c = true ->
  body st w = (Raised (HTTPError c), after_fetch p w).

Lemma while_return_next fuel st w st' w' :
  cond st = true -> body st w = (Returned (Continue st'), w') ->
  while_return (S fuel) cond body st w = while_return fuel cond body st' w'.
Proof. intros H B. simpl. rewrite H. unfold bind. now rewrite B. Qed.

Lemma while_return_last fuel st w (o : outcome (ctl json json)) w' :
  cond st = true -> body st w = (o, w') ->
  (forall st', o <> Returned (Continue st')) ->
  while_return (S fuel) cond body st w = (o, w').
Proof.
  intros H B N. simpl. rewrite H. unfold bind. rewrite B.
  destruct o as [[st'|r]| |]; try reflexivity. now destruct (N st').
Qed.

Lemma sleep_round_advanced w :
  advanced p 1 w (emit (EvSleep (2 ^ Z.of_nat (S (fetch_count w))))
                       (after_fetch p w)).
Proof.
  unfold advanced, after_fetch. simpl. repeat split.
  - unfold gets. rewrite !filter_app, !length_app. simpl. lia.
  - unfold timing. rewrite !filter_app, <- !app_assoc. simpl.
    now rewrite Nat.add_1_r.
  - lia.
Qed.

(** [n] iterations that sleep, the counter ending no higher than 33. *)
Lemma backoff_prefix n : forall st w,
  cond st = true ->
  (n = 0 \/ fetch_count w + n <= 33)%nat ->
  (forall i, (i < n)%nat -> keeps_polling p (replies w i)) ->
  exists st' w',
    (forall fuel, while_return (n + fuel) cond body st w
                  = while_return fuel cond body st' w') /\
    cond st' = true /\ advanced p n w w'.
Proof.
  induction n as [|n IH]; intros st w C B K.
  - exists st, w. auto using advanced_refl.
  - destruct (IH st w C) as (st1 & w1 & L & C1 & A);
      [lia|auto with arith|].
    assert (T1 : terminal p st1 = false).
    { rewrite cond_spec in C1. now destruct (terminal p st1). }
    destruct (K n (Nat.lt_succ_diag_r n) _ T1) as (s & O & T).
    destruct A as (R & A).
    rewrite <- (Nat.add_0_r n), <- R in O.
    unfold observed in O.
    destruct (good_body (replies w1 0)) as [b|] eqn:G; [|discriminate].
    destruct (extract p st1 b) as [|s'] eqn:X; [discriminate|].
    injection O as ->.
    assert (B1 : (S (fetch_count w1) <= 33)%nat).
    { destruct A as (_ & _ & F & _). cbv beta iota delta [p] in F. lia. }
    eexists s, _. split; [|split].
    + intro fuel. replace (S n + fuel)%nat with (n + S fuel)%nat by lia.
      rewrite L. apply while_return_next; eauto.
    + now rewrite cond_spec, T.
    + eapply advanced_step; [split; eauto | apply sleep_round_advanced].
Qed.

Lemma backoff_completes n st w s b fuel :
  cond st = true ->
  (n = 0 \/ fetch_count w + n <= 33)%nat ->
  (forall i, (i < n)%nat -> keeps_polling p (replies w i)) ->
  good_body (replies w n) = Some b ->
  (forall status, observed p status (replies w n) = Some s) ->
  terminal p s = true ->
  (n < fuel)%nat ->
  exists w1,
    while_return fuel cond body st w
      = (Returned (Return b),
         emit (EvLog "Image generation:" [b]) (after_fetch p w1)) /\
    advanced p n w w1.
Proof.
  intros C B K G O T F.
  destruct (backoff_prefix n st w C B K) as (st1 & w1 & L & C1 & A).
  exists w1. split; [|exact A].
  replace fuel with (n + S (fuel - S n))%nat by lia.
  rewrite L.
  destruct A as (R & _). rewrite <- (Nat.add_0_r n), <- R in G, O.
  apply while_return_last; [assumption| |discriminate].
  apply body_returns with (s := s); auto.
  specialize (O st1). unfold observed in O. rewrite G in O.
  destruct (extract p st1 b); now inversion O.
Qed.

Lemma backoff_aborts n st w c b fuel :
  cond st = true ->
  (n = 0 \/ fetch_count w + n <= 33)%nat ->
  (forall i, (i < n)%nat -> keeps_polling p (replies w i)) ->
  replies w n = Reply c b -> is_error_status c = true ->
  (n < fuel)%nat ->
  exists w1,
    while_return fuel cond body st w
      = (Raised (HTTPError c), after_fetch p w1) /\
    advanced p n w w1.
Proof.
  intros C B K G E F.
  destruct (backoff_prefix n st w C B K) as (st1 & w1 & L & C1 & A).
  exists w1. split; [|exact A].
  replace fuel with (n + S (fuel - S n))%nat by lia.
  rewrite L.
  destruct A as (R & _). rewrite <- (Nat.add_0_r n), <- R in G.
  apply while_return_last; [assumption| |discriminate]. eauto.
Qed.

Lemma backoff_never fuel : forall st w,
  cond st = true ->
  (fuel = 0 \/ fetch_count w + fuel <= 33)%nat ->
  (forall i, (i < fuel)%nat -> keeps_polling p (replies w i)) ->
  exists w', while_return fuel cond body st w = (OutOfFuel, w') /\
             advanced p fuel w w'.
Proof.
  intros st w C B K.
  destruct (backoff_prefix fuel st w C B K) as (st1 & w1 & L & C1 & A).
  exists w1. split; [|exact A].
  rewrite <- (Nat.add_0_r fuel) at 1. rewrite L. simpl. now rewrite C1.
Qed.

Hypothesis body_overflows : forall st w b s,
  good_body (replies w 0) = Some b -> extract p st b = inr s ->
  terminal p s = false ->
  (33 < S (fetch_count w))%nat ->
  body st w = (Raised OverflowError, after_fetch p w).

(** The iteration on which the counter passes 33 while the status is not
    terminal: the delay is refused, after the GET. *)
Lemma backoff_overflows n st w fuel :
  cond st = true ->
  (n = 0 \/ fetch_count w + n <= 33)%nat ->
  (forall i, (i <= n)%nat -> keeps_polling p (replies w i)) ->
  (33 < fetch_count w + S n)%nat ->
  (n < fuel)%nat ->
  exists w1,
    while_return fuel cond body st w
      = (Raised OverflowError, after_fetch p w1) /\
    advanced p n w w1.
Proof.
  intros C B K V F.
  destruct (backoff_prefix n st w C B) as (st1 & w1 & L & C1 & A);
    [auto with arith|].
  exists w1. split; [|exact A].
  replace fuel with (n + S (fuel - S n))%nat by lia.
  rewrite L.
  assert (T1 : terminal p st1 = false).
  { rewrite cond_spec in C1. now destruct (terminal p st1). }
  destruct (K n (Nat.le_refl n) _ T1) as (s & O & T).
  destruct A as (R & _ & _ & Fc & _).
  rewrite <- (Nat.add_0_r n), <- R in O.
  unfold observed in O.
  destruct (good_body (replies w1 0)) as [b|] eqn:G; [|discriminate].
  destruct (extract p st1 b) as [|s'] eqn:X; [discriminate|].
  injection O as ->.
  apply while_return_last; [assumption| |discriminate].
  apply body_overflows with (b := b) (s := s); auto.
  cbv beta iota delta [p] in Fc. lia.
Qed.

Hypothesis body_sends : forall st, sends_get (body st).

Lemma backoff_polls_again st w fuel :
  cond st = true ->
  (S (fetch_count w) <= 33)%nat ->
  keeps_polling p (replies w 0) ->
  (2 <= fuel)%nat ->
  (gets (trace w) + 2
   <= gets (trace (snd (while_return fuel cond body st w))))%nat.
Proof.
  intros C B K F.
  destruct (backoff_prefix 1 st w C) as (st1 & w1 & L & C1 & (_ & G & _)).
  { lia. }
  { intros i Li. now replace i with 0%nat by lia. }
  replace fuel with (1 + S (fuel - 2))%nat by lia. rewrite L.
  simpl. rewrite C1.
  pose proof (sends_get_bind (body st1)
                (fun c => match c with
                          | Continue s' => while_return (fuel - 2) cond body s'
                          | Return r => ret (Return r)
                          end)
                (body_sends st1)) as S.
  specialize (S ltac:(intros [s'|r];
                      [apply grows_while_return;
                       intro; apply sends_get_grows, body_sends
                      |apply grows_ret]) w1).
  lia.
Qed.
End Backoff.

(** ** The four functions *)

Ltac io_unfold :=
  cbv [bind print requests_get requests_send raise_for_status
       response_json Main.fetch_image Main.logger_info];
  rewrite ?sleep_five;
  cbn [replies trace fetch_count environ_client_id presigner emit next_reply
       set_fetch_count status_code body].

(** One iteration that reads a body, and one that meets an error code. *)
Ltac round_reads :=
  let G := fresh "G" in let X := fresh "X" in
  let c := fresh "c" in let R := fresh "R" in let E := fresh "E" in
  intros ? ? ? ? G X; apply good_body_inv in G as (c & R & E);
  io_unfold; rewrite R; cbn [status_code body]; rewrite E;
  cbv [ret]; cbv beta iota delta [extract fst] in X; rewrite X; reflexivity.

Ltac round_raises :=
  let R := fresh "R" in let E := fresh "E" in
  intros ? ? ? ? R E; io_unfold; rewrite R; cbn [status_code body];
  rewrite E; reflexivity.

Lemma environ_of_authorised (w : World) :
  match environ_client_id w with Some _ => true | None => false end = true ->
  exists v, os_environ_client_id w = (Returned v, w).
Proof.
  unfold os_environ_client_id.
  destruct (environ_client_id w); [eauto|discriminate].
Qed.

Lemma guard_of_authorised (request : Main.Request) (w : World) :
  negb (Main.py_not (Main.cookies_get "access_token" (Main.cookies request)))
    = true ->
  Main.access_token_guard request w
    = (Returned (Main.bearer_of
                   (Main.cookies_get "access_token" (Main.cookies request))),
       w).
Proof.
  unfold Main.access_token_guard.
  destruct (Main.py_not _); [discriminate|reflexivity].
Qed.

Lemma finished_fixed p n w w1 w' label s :
  fixed_delay p -> advanced p n w w1 ->
  timing (trace w') = timing (trace (after_round p label s w1)) ->
  gets (trace w') = gets (trace (after_round p label s w1)) ->
  fetch_count w' = fetch_count w1 ->
  finished p n w w'.
Proof.
  intros P (_ & G & T & F & _) X1 X2 FC. unfold finished.
  rewrite X1, X2. unfold gets, timing in *. unfold after_round. simpl.
  rewrite !filter_app, !length_app, T, G.
  destruct p; try (exfalso; exact P); simpl;
    rewrite ?app_nil_r, <- ?app_assoc;
    (split; [lia|split; [reflexivity|congruence]]).
Qed.

Lemma finished_backoff u r n w w1 w' :
  let p := ImageCallback u r in
  advanced p n w w1 ->
  timing (trace w') = timing (trace (after_fetch p w1)) ->
  gets (trace w') = gets (trace (after_fetch p w1)) ->
  fetch_count w' = S (fetch_count w1) ->
  finished p n w w'.
Proof.
  intros p (_ & G & T & F & _) X1 X2 FC. unfold finished.
  rewrite X1, X2. unfold gets, timing in *. unfold after_fetch. simpl.
  rewrite !filter_app, !length_app, T, G. simpl.
  rewrite ?app_nil_r, <- ?app_assoc.
  split; [lia|split; [reflexivity|]]. simpl in F. lia.
Qed.

(** Events that are neither requests nor sleeps leave the counts alone. *)
Ltac quiet :=
  unfold timing, gets; cbn [trace emit];
  rewrite ?filter_app; cbn [filter is_timing is_get];
  rewrite ?app_nil_r; reflexivity.

(** Enter a script: the environment lookup succeeds. *)
Ltac enter_script A :=
  let v := fresh "v" in
  apply environ_of_authorised in A as (v & A);
  cbv [run_poll AutomateWorkflow.check_photoshop_job_status
       AutomateWorkflow.check_firefly_job_status
       AutomateWorkflow.check_lightroom_job_status];
  unfold bind at 1; rewrite A.

Ltac enter_callback A w :=
  apply guard_of_authorised with (w := w) in A;
  cbv [run_poll Main.success_image_callback];
  unfold bind at 1; rewrite A.

(** An iteration of the image callback up to its test of the status. *)
Ltac callback_reads G X T :=
  let c := fresh "c" in let R := fresh "R" in let E := fresh "E" in
  apply good_body_inv in G as (c & R & E);
  io_unfold; rewrite R; cbn [status_code body]; rewrite E;
  cbv [ret]; cbv beta iota delta [extract] in X; rewrite X;
  cbv [lift ret]; rewrite still_running_terminal;
  cbv beta iota delta [terminal] in T; rewrite T; cbn [negb].

(** It ends the poll, it sleeps, or the delay is refused. *)
Ltac callback_round :=
  let G := fresh "G" in let X := fresh "X" in let T := fresh "T" in
  intros ? ? ? ? G X T; callback_reads G X T; reflexivity.

Ltac callback_sleeps :=
  let G := fresh "G" in let X := fresh "X" in let T := fresh "T" in
  let B := fresh "B" in
  intros ? ? ? ? G X T B; callback_reads G X T;
  rewrite sleep_fits by exact B; reflexivity.

Ltac callback_refused :=
  let G := fresh "G" in let X := fresh "X" in let T := fresh "T" in
  let B := fresh "B" in
  intros ? ? ? ? G X T B; callback_reads G X T;
  rewrite sleep_overflows by exact B; reflexivity.

(** A terminal status on the [S n]-th iteration ends the poll there. *)
Lemma poll_completes (p : poll) (n : nat) (w : World) (s b : json) (fuel : nat) :
  authorised p w = true ->
  sleeps_fit p w n ->
  (forall i, (i < n)%nat -> keeps_polling p (replies w i)) ->
  good_body (replies w n) = Some b ->
  (forall status, observed p status (replies w n) = Some s) ->
  terminal p s = true ->
  (n < fuel)%nat ->
  exists w', run_poll p fuel w = (conclusion p s b, w') /\ finished p n w w'.
Proof.
  intros A B K G O T F. destruct p as [j a|j a|j a|u r].
  - enter_script A.
    lazymatch goal with |- context [while_loop _ ?c ?bd ?s0] =>
      destruct (fixed_completes (Photoshop j a) "Photoshop Job Status: "
                  (fun x => x) (fun x _ => x) c bd I (fun _ => eq_refl)
                  (fun _ _ => eq_refl) ltac:(round_reads)
                  n s0 w s b fuel eq_refl K G O T F) as (w1 & L & A1)
    end.
    unfold bind at 1. rewrite L.
    destruct (py_is "succeeded" s); eexists; (split; [reflexivity|]);
      eapply finished_fixed; eauto; solve [exact I | quiet | reflexivity].
  - enter_script A.
    lazymatch goal with |- context [while_loop _ ?c ?bd ?s0] =>
      destruct (fixed_completes (Firefly j a) "Firefly Job Status: "
                  fst (fun x y => (x, y)) c bd I
                  ltac:(intros [? ?]; reflexivity)
                  (fun _ _ => eq_refl) ltac:(round_reads)
                  n s0 w s b fuel eq_refl K G O T F) as (w1 & L & A1)
    end.
    unfold bind at 1. rewrite L. cbv [conclusion].
    destruct (py_is "succeeded" s).
    + unfold bind at 1, print at 1. unfold bind at 1.
      destruct (ebind (py_item b "result") _) as [e|url];
        eexists; (split; [reflexivity|]);
        eapply finished_fixed; eauto; solve [exact I | quiet | reflexivity].
    + eexists; (split; [reflexivity|]);
        eapply finished_fixed; eauto; solve [exact I | quiet | reflexivity].
  - enter_script A.
    lazymatch goal with |- context [while_loop _ ?c ?bd ?s0] =>
      destruct (fixed_completes (Lightroom j a) "Lightroom Job Status: "
                  (fun x => x) (fun x _ => x) c bd I (fun _ => eq_refl)
                  (fun _ _ => eq_refl) ltac:(round_reads)
                  n s0 w s b fuel eq_refl K G O T F) as (w1 & L & A1)
    end.
    unfold bind at 1. rewrite L.
    destruct (py_is "succeeded" s); eexists; (split; [reflexivity|]);
      eapply finished_fixed; eauto; solve [exact I | quiet | reflexivity].
  - enter_callback A w.
    lazymatch goal with |- context [while_return _ ?c ?bd ?s0] =>
      destruct (backoff_completes u r c bd still_running_terminal
                  ltac:(callback_sleeps) ltac:(callback_round)
                  n s0 w s b fuel eq_refl B K G O T F) as (w1 & L & A1)
    end.
    unfold bind at 1. rewrite L.
    eexists; (split; [reflexivity|]).
    eapply finished_backoff; eauto; solve [quiet | reflexivity].
Qed.

Ltac callback_raises :=
  let R := fresh "R" in let E := fresh "E" in
  intros ? ? ? ? R E; io_unfold; rewrite R; cbn [status_code body];
  rewrite E; reflexivity.

(** An error code on the [S n]-th iteration ends the poll there. *)
Lemma poll_aborts (p : poll) (n : nat) (w : World) (c : Z) (b : option json)
    (fuel : nat) :
  authorised p w = true ->
  sleeps_fit p w n ->
  (forall i, (i < n)%nat -> keeps_polling p (replies w i)) ->
  replies w n = Reply c b -> is_error_status c = true ->
  (n < fuel)%nat ->
  exists w', run_poll p fuel w = (Raised (HTTPError c), w') /\
             finished p n w w'.
Proof.
  intros A B K G E F. destruct p as [j a|j a|j a|u r].
  - enter_script A.
    lazymatch goal with |- context [while_loop _ ?c0 ?bd ?s0] =>
      destruct (fixed_aborts (Photoshop j a) "Photoshop Job Status: "
                  (fun x => x) (fun x _ => x) c0 bd I (fun _ => eq_refl)
                  (fun _ _ => eq_refl) ltac:(round_reads) ltac:(round_raises)
                  n s0 w c b fuel eq_refl K G E F) as (w1 & L & A1)
    end.
    unfold bind at 1. rewrite L. eexists; (split; [reflexivity|]).
    eapply (finished_fixed _ _ _ _ _ "" JNull); eauto;
      solve [exact I | unfold after_round; quiet | reflexivity].
  - enter_script A.
    lazymatch goal with |- context [while_loop _ ?c0 ?bd ?s0] =>
      destruct (fixed_aborts (Firefly j a) "Firefly Job Status: "
                  fst (fun x y => (x, y)) c0 bd I
                  ltac:(intros [? ?]; reflexivity)
                  (fun _ _ => eq_refl) ltac:(round_reads) ltac:(round_raises)
                  n s0 w c b fuel eq_refl K G E F) as (w1 & L & A1)
    end.
    unfold bind at 1. rewrite L. eexists; (split; [reflexivity|]).
    eapply (finished_fixed _ _ _ _ _ "" JNull); eauto;
      solve [exact I | unfold after_round; quiet | reflexivity].
  - enter_script A.
    lazymatch goal with |- context [while_loop _ ?c0 ?bd ?s0] =>
      destruct (fixed_aborts (Lightroom j a) "Lightroom Job Status: "
                  (fun x => x) (fun x _ => x) c0 bd I (fun _ => eq_refl)
                  (fun _ _ => eq_refl) ltac:(round_reads) ltac:(round_raises)
                  n s0 w c b fuel eq_refl K G E F) as (w1 & L & A1)
    end.
    unfold bind at 1. rewrite L. eexists; (split; [reflexivity|]).
    eapply (finished_fixed _ _ _ _ _ "" JNull); eauto;
      solve [exact I | unfold after_round; quiet | reflexivity].
  - enter_callback A w.
    lazymatch goal with |- context [while_return _ ?c0 ?bd ?s0] =>
      destruct (backoff_aborts u r c0 bd still_running_terminal
                  ltac:(callback_sleeps) ltac:(callback_raises)
                  n s0 w c b fuel eq_refl B K G E F) as (w1 & L & A1)
    end.
    unfold bind at 1. rewrite L. eexists; (split; [reflexivity|]).
    eapply finished_backoff; eauto; reflexivity.
Qed.

(** While the replies keep it polling, a poll uses up any fuel. *)
Lemma poll_never (p : poll) (fuel : nat) (w : World) :
  authorised p w = true ->
  sleeps_fit p w fuel ->
  (forall i, (i < fuel)%nat -> keeps_polling p (replies w i)) ->
  exists w', run_poll p fuel w = (OutOfFuel, w') /\ advanced p fuel w w'.
Proof.
  intros A B K. destruct p as [j a|j a|j a|u r].
  - enter_script A.
    lazymatch goal with |- context [while_loop _ ?c0 ?bd ?s0] =>
      destruct (fixed_never (Photoshop j a) "Photoshop Job Status: "
                  (fun x => x) (fun x _ => x) c0 bd I (fun _ => eq_refl)
                  (fun _ _ => eq_refl) ltac:(round_reads)
                  fuel s0 w eq_refl K) as (w1 & L & A1)
    end.
    unfold bind at 1. rewrite L. eauto.
  - enter_script A.
    lazymatch goal with |- context [while_loop _ ?c0 ?bd ?s0] =>
      destruct (fixed_never (Firefly j a) "Firefly Job Status: "
                  fst (fun x y => (x, y)) c0 bd I
                  ltac:(intros [? ?]; reflexivity)
                  (fun _ _ => eq_refl) ltac:(round_reads)
                  fuel s0 w eq_refl K) as (w1 & L & A1)
    end.
    unfold bind at 1. rewrite L. eauto.
  - enter_script A.
    lazymatch goal with |- context [while_loop _ ?c0 ?bd ?s0] =>
      destruct (fixed_never (Lightroom j a) "Lightroom Job Status: "
                  (fun x => x) (fun x _ => x) c0 bd I (fun _ => eq_refl)
                  (fun _ _ => eq_refl) ltac:(round_reads)
                  fuel s0 w eq_refl K) as (w1 & L & A1)
    end.
    unfold bind at 1. rewrite L. eauto.
  - enter_callback A w.
    lazymatch goal with |- context [while_return _ ?c0 ?bd ?s0] =>
      destruct (backoff_never u r c0 bd still_running_terminal
                  ltac:(callback_sleeps)
                  fuel s0 w eq_refl B K) as (w1 & L & A1)
    end.
    unfold bind at 1. rewrite L. eauto.
Qed.

(** The image callback on the iteration that takes the counter past 33
    with a status that is not terminal: [time.sleep] refuses the delay and
    the OverflowError ends the poll, the GET of that iteration its last. *)
Lemma poll_overflows (u : string) (r : Main.Request) (n : nat) (w : World)
    (fuel : nat) :
  authorised (ImageCallback u r) w = true ->
  sleeps_fit (ImageCallback u r) w n ->
  (forall i, (i <= n)%nat -> keeps_polling (ImageCallback u r) (replies w i)) ->
  (33 < fetch_count w + S n)%nat ->
  (n < fuel)%nat ->
  exists w', run_poll (ImageCallback u r) fuel w = (Raised OverflowError, w') /\
             finished (ImageCallback u r) n w w'.
Proof.
  intros A B K V F. enter_callback A w.
  lazymatch goal with |- context [while_return _ ?c0 ?bd ?s0] =>
    destruct (backoff_overflows u r c0 bd still_running_terminal
                ltac:(callback_sleeps) ltac:(callback_refused)
                n s0 w fuel eq_refl B K V F) as (w1 & L & A1)
  end.
  unfold bind at 1. rewrite L. eexists; (split; [reflexivity|]).
  eapply finished_backoff; eauto; reflexivity.
Qed.

Ltac always_returns :=
  intros ?; rewrite ?sleep_five; eexists; eexists; split; [reflexivity|];
  cbn [trace emit set_fetch_count]; rewrite ?gets_app;
  cbv [gets filter is_get List.length]; lia.

Ltac script_round_sends :=
  intro; apply sends_get_after; [always_returns|];
  intro; apply sends_get_bind; [apply sends_get_requests_get|];
  intro; io_grows.

Ltac callback_round_sends :=
  intro; apply sends_get_after; [always_returns|];
  intro; unfold Main.fetch_image;
  apply sends_get_bind;
    [apply sends_get_bind; [apply sends_get_requests_get|intro; io_grows]|];
  intro; io_grows.

(** A reply that keeps the poll going is followed by a second GET, given
    fuel for a second iteration. *)
Lemma poll_polls_again (p : poll) (w : World) (fuel : nat) :
  authorised p w = true ->
  sleeps_fit p w 1 ->
  keeps_polling p (replies w 0) ->
  (2 <= fuel)%nat ->
  (gets (trace w) + 2 <= gets (trace (snd (run_poll p fuel w))))%nat.
Proof.
  intros A B K F. destruct p as [j a|j a|j a|u r].
  - enter_script A. apply gets_after_bind; [intro; io_grows|].
    lazymatch goal with |- context [while_loop _ ?c0 ?bd ?s0] =>
      apply (fixed_polls_again (Photoshop j a) "Photoshop Job Status: "
               (fun x => x) (fun x _ => x) c0 bd I (fun _ => eq_refl)
               (fun _ _ => eq_refl) ltac:(round_reads)
               ltac:(script_round_sends) s0 w fuel eq_refl K F)
    end.
  - enter_script A. apply gets_after_bind; [intros [? ?]; io_grows|].
    lazymatch goal with |- context [while_loop _ ?c0 ?bd ?s0] =>
      apply (fixed_polls_again (Firefly j a) "Firefly Job Status: "
               fst (fun x y => (x, y)) c0 bd I
               ltac:(intros [? ?]; reflexivity)
               (fun _ _ => eq_refl) ltac:(round_reads)
               ltac:(script_round_sends) s0 w fuel eq_refl K F)
    end.
  - enter_script A. apply gets_after_bind; [intro; io_grows|].
    lazymatch goal with |- context [while_loop _ ?c0 ?bd ?s0] =>
      apply (fixed_polls_again (Lightroom j a) "Lightroom Job Status: "
               (fun x => x) (fun x _ => x) c0 bd I (fun _ => eq_refl)
               (fun _ _ => eq_refl) ltac:(round_reads)
               ltac:(script_round_sends) s0 w fuel eq_refl K F)
    end.
  - enter_callback A w. apply gets_after_bind; [intros [?|?]; io_grows|].
    lazymatch goal with |- context [while_return _ ?c0 ?bd ?s0] =>
      apply (backoff_polls_again u r c0 bd still_running_terminal
               ltac:(callback_sleeps) ltac:(callback_round_sends)
               s0 w fuel eq_refl ltac:(simpl in B; lia) K F)
    end.
Qed.

(** ** From the shape of a reply to what the loop does with it *)

Lemma non_terminal_sound (p : poll) (s : json) :
  non_terminal p s = true -> terminal p s = false.
Proof.
  destruct p;
    cbv [non_terminal terminal spec_terminal one_of py_in_strs existsb];
    destruct (py_is "succeeded" s), (py_is "failed" s),
             (py_is "cancelled" s); simpl; congruence.
Qed.

Lemma reported_keeps_polling (p : poll) (r : reply) (s : json) :
  reported p r = Some s -> terminal p s = false -> keeps_polling p r.
Proof. intros R T status _. exists s. eauto using reported_observed. Qed.

Lemma reported_good_body (p : poll) (r : reply) (s : json) :
  reported p r = Some s -> exists b, good_body r = Some b.
Proof.
  unfold reported, top_status, nested_status.
  destruct (good_body r) as [b|]; [eauto|destruct p; discriminate].
Qed.

Lemma conclusion_not_out_of_fuel (p : poll) (s b : json) :
  conclusion p s b <> OutOfFuel.
Proof.
  destruct p; simpl; try discriminate.
  destruct (py_is "succeeded" s); [|discriminate].
  destruct (ebind _ _); discriminate.
Qed.

Lemma prefix_keeps_polling (p : poll) (w : World) (n : nat) :
  (forall i, (i < n)%nat ->
     exists s, reported p (replies w i) = Some s /\ non_terminal p s = true) ->
  forall i, (i < n)%nat -> keeps_polling p (replies w i).
Proof.
  intros H i L. destruct (H i L) as (s & R & N).
  eauto using reported_keeps_polling, non_terminal_sound.
Qed.

(** A poll whose replies reach a terminal status is over by then: it has
    come to its conclusion, or the image callback has met a delay that
    [time.sleep] refuses on the way. *)
Lemma poll_ends (p : poll) (n : nat) (w : World) (s b : json) (fuel : nat) :
  authorised p w = true ->
  (forall i, (i < n)%nat -> keeps_polling p (replies w i)) ->
  good_body (replies w n) = Some b ->
  (forall status, observed p status (replies w n) = Some s) ->
  terminal p s = true ->
  (n < fuel)%nat ->
  fst (run_poll p fuel w) <> OutOfFuel.
Proof.
  intros A K G O T F.
  assert (D : sleeps_fit p w n \/ ~ sleeps_fit p w n)
    by (destruct p; simpl; [left; exact I ..|lia]).
  destruct D as [B|B].
  - destruct (poll_completes p n w s b fuel A B K G O T F) as (w' & E & _).
    rewrite E. apply conclusion_not_out_of_fuel.
  - destruct p as [j a|j a|j a|u r]; try (exfalso; apply B; exact I).
    unfold sleeps_fit in B.
    destruct (poll_overflows u r (33 - fetch_count w) w fuel A)
      as (w' & E & _).
    + unfold sleeps_fit. lia.
    + intros i Li. apply K. lia.
    + lia.
    + lia.
    + rewrite E. discriminate.
Qed.

(** The end of a poll on the status failed: what it returns, and the last
    events of its trace. *)
Lemma poll_fails (p : poll) (n : nat) (w : World) (b : json) (fuel : nat) :
  authorised p w = true ->
  sleeps_fit p w n ->
  (forall i, (i < n)%nat -> keeps_polling p (replies w i)) ->
  good_body (replies w n) = Some b ->
  (forall status, observed p status (replies w n) = Some (JStr "failed")) ->
  (n < fuel)%nat ->
  exists w' before,
    run_poll p fuel w
      = (Returned (match p with ImageCallback _ _ => b | _ => JNull end), w') /\
    trace w' = (before ++ last_round p ++ failure_events p b)%list.
Proof.
  intros A B K G O F. destruct p as [j a|j a|j a|u r].
  - enter_script A.
    lazymatch goal with |- context [while_loop _ ?c ?bd ?s0] =>
      destruct (fixed_completes (Photoshop j a) "Photoshop Job Status: "
                  (fun x => x) (fun x _ => x) c bd I (fun _ => eq_refl)
                  (fun _ _ => eq_refl) ltac:(round_reads)
                  n s0 w (JStr "failed") b fuel eq_refl K G O eq_refl F)
        as (w1 & L & A1)
    end.
    unfold bind at 1. rewrite L. eexists. exists (trace w1).
    split; [reflexivity|].
    cbn [trace emit next_reply after_round last_round failure_events].
    now rewrite <- !app_assoc.
  - enter_script A.
    lazymatch goal with |- context [while_loop _ ?c ?bd ?s0] =>
      destruct (fixed_completes (Firefly j a) "Firefly Job Status: "
                  fst (fun x y => (x, y)) c bd I
                  ltac:(intros [? ?]; reflexivity)
                  (fun _ _ => eq_refl) ltac:(round_reads)
                  n s0 w (JStr "failed") b fuel eq_refl K G O eq_refl F)
        as (w1 & L & A1)
    end.
    unfold bind at 1. rewrite L. eexists. exists (trace w1).
    split; [reflexivity|].
    cbn [trace emit next_reply after_round last_round failure_events].
    now rewrite <- !app_assoc.
  - enter_script A.
    lazymatch goal with |- context [while_loop _ ?c ?bd ?s0] =>
      destruct (fixed_completes (Lightroom j a) "Lightroom Job Status: "
                  (fun x => x) (fun x _ => x) c bd I (fun _ => eq_refl)
                  (fun _ _ => eq_refl) ltac:(round_reads)
                  n s0 w (JStr "failed") b fuel eq_refl K G O eq_refl F)
        as (w1 & L & A1)
    end.
    unfold bind at 1. rewrite L. eexists. exists (trace w1).
    split; [reflexivity|].
    cbn [trace emit next_reply after_round last_round failure_events].
    now rewrite <- !app_assoc.
  - enter_callback A w.
    lazymatch goal with |- context [while_return _ ?c ?bd ?s0] =>
      destruct (backoff_completes u r c bd still_running_terminal
                  ltac:(callback_sleeps) ltac:(callback_round)
                  n s0 w (JStr "failed") b fuel eq_refl B K G O eq_refl F)
        as (w1 & L & A1)
    end.
    unfold bind at 1. rewrite L. eexists. exists (trace w1).
    split; [reflexivity|].
    cbn [trace emit next_reply after_fetch set_fetch_count last_round
         failure_events].
    now rewrite <- !app_assoc.
Qed.

(** ** Claims *)

(** C1, amended. After [n] status replies that are not terminal and one
    whose status is terminal for the loop that reads it (succeeded or
    failed, and for the Firefly script also cancelled), the poll has sent
    exactly [n + 1] GET requests and is over: it hands back what the
    function makes of the terminal reply, and no fuel beyond [n + 1]
    iterations changes that.  For the image callback the [n] delays have
    to be ones [time.sleep] accepts: the global counter stays within 33. *)
Theorem poll_stops_at_first_terminal (p : poll) (w : World) (n fuel : nat) :
  authorised p w = true ->
  sleeps_fit p w n ->
  (forall i, (i < n)%nat ->
     exists s, reported p (replies w i) = Some s /\ non_terminal p s = true) ->
  (exists s, reported p (replies w n) = Some s /\ terminal p s = true) ->
  (n < fuel)%nat ->
  exists s b,
    reported p (replies w n) = Some s /\ good_body (replies w n) = Some b /\
    fst (run_poll p fuel w) = conclusion p s b /\
    fst (run_poll p fuel w) <> OutOfFuel /\
    gets (trace (snd (run_poll p fuel w))) = (gets (trace w) + (n + 1))%nat.
Proof.
  intros A B K (s & R & T) F.
  destruct (reported_good_body _ _ _ R) as (b & G).
  destruct (poll_completes p n w s b fuel A B (prefix_keeps_polling p w n K) G
              (fun st => reported_observed p _ s st R) T F)
    as (w' & E & (Gt & _)).
  exists s, b. rewrite E. simpl.
  repeat split; auto using conclusion_not_out_of_fuel. lia.
Qed.

Lemma poll_stops_at_first_terminal_witness :
  exists s b,
    reported (Firefly "job" "token") (replies three_pending_then_failed 3)
      = Some s /\
    good_body (replies three_pending_then_failed 3) = Some b /\
    fst (run_poll (Firefly "job" "token") 4 three_pending_then_failed)
      = conclusion (Firefly "job" "token") s b /\
    fst (run_poll (Firefly "job" "token") 4 three_pending_then_failed)
      <> OutOfFuel /\
    gets (trace (snd (run_poll (Firefly "job" "token") 4
                        three_pending_then_failed)))
      = (gets (trace three_pending_then_failed) + (3 + 1))%nat.
Proof.
  apply (poll_stops_at_first_terminal (Firefly "job" "token")
           three_pending_then_failed 3 4).
  - reflexivity.
  - exact I.
  - intros i L. exists (JStr "pending").
    destruct i as [|[|[|i]]]; [split; reflexivity ..|lia].
  - exists (JStr "failed"). split; reflexivity.
  - lia.
Defined.

(** C1 as stated fails: cancelled is one of the three terminal statuses of
    the claim, and the Photoshop script sent cancelled and then succeeded
    does not stop at the first: it sends a second GET. *)
Lemma photoshop_reads_past_cancelled :
  reported (Photoshop "job" "token")
    (replies (serving [ok (status_body "cancelled");
                       ok (status_body "succeeded")]) 0)
    = Some (JStr "cancelled") /\
  spec_terminal (JStr "cancelled") = true /\
  fst (run_poll (Photoshop "job" "token") 5
         (serving [ok (status_body "cancelled"); ok (status_body "succeeded")]))
    = Returned JNull /\
  gets (trace (snd (run_poll (Photoshop "job" "token") 5
         (serving [ok (status_body "cancelled");
                   ok (status_body "succeeded")])))) = 2%nat.
Proof. repeat split. Qed.

Lemma first_true (f : nat -> bool) (k : nat) :
  f k = true ->
  exists m, (m <= k)%nat /\ f m = true /\
            forall i, (i < m)%nat -> f i = false.
Proof.
  revert f. induction k as [|k IH]; intros f H.
  - exists 0%nat. repeat split; auto. intros i L. lia.
  - destruct (f 0%nat) eqn:F0.
    + exists 0%nat. repeat split; auto with arith. intros i L. lia.
    + destruct (IH (fun i => f (S i)) H) as (m & L & T & B).
      exists (S m). repeat split; auto with arith.
      intros [|i] Li; auto with arith.
Qed.

(** C2, amended. Once the replies are status replies up to one whose status
    is terminal for the loop that reads it (succeeded or failed, and for the
    Firefly script also cancelled), the poll is over after finitely many
    iterations: from some amount of fuel on it never runs out. *)
Theorem poll_terminates (p : poll) (w : World) (k : nat) :
  authorised p w = true ->
  (forall i, (i <= k)%nat -> exists s, reported p (replies w i) = Some s) ->
  (exists s, reported p (replies w k) = Some s /\ terminal p s = true) ->
  exists fuel0, forall fuel, (fuel0 <= fuel)%nat ->
    fst (run_poll p fuel w) <> OutOfFuel.
Proof.
  intros A R (sk & Rk & Tk).
  set (f := fun i => match reported p (replies w i) with
                     | Some s => terminal p s
                     | None => false
                     end).
  assert (Fk : f k = true) by (unfold f; now rewrite Rk).
  destruct (first_true f k Fk) as (m & Lm & Tm & Bm).
  destruct (R m Lm) as (s & Rm).
  assert (T : terminal p s = true) by (unfold f in Tm; now rewrite Rm in Tm).
  destruct (reported_good_body _ _ _ Rm) as (b & G).
  exists (S m). intros fuel F.
  apply (poll_ends p m w s b fuel A); auto.
  - intros i Li. destruct (R i) as (si & Ri); [lia|].
    apply reported_keeps_polling with si; auto.
    specialize (Bm i Li). unfold f in Bm. now rewrite Ri in Bm.
  - intro st. now apply reported_observed.
Qed.

Lemma poll_terminates_witness :
  exists fuel0, forall fuel, (fuel0 <= fuel)%nat ->
    fst (run_poll (ImageCallback "url" with_token) fuel
           (serving [ok (status_body "pending"); ok (nested_body "running");
                     ok (status_body "succeeded"); ok (status_body "failed")]))
      <> OutOfFuel.
Proof.
  apply (poll_terminates (ImageCallback "url" with_token)
           (serving [ok (status_body "pending"); ok (nested_body "running");
                     ok (status_body "succeeded"); ok (status_body "failed")])
           3).
  - reflexivity.
  - intros i L. destruct i as [|[|[|[|i]]]]; [eexists; reflexivity ..|lia].
  - exists (JStr "failed"). split; reflexivity.
Defined.

(** C2 as stated fails: the Lightroom script is sent the status cancelled,
    one of the three of the claim, for ever, and no amount of fuel lets it
    finish. *)
Lemma lightroom_polls_cancelled_for_ever :
  reported (Lightroom "job" "token")
    (replies (always (ok (nested_body "cancelled"))) 0)
    = Some (JStr "cancelled") /\
  spec_terminal (JStr "cancelled") = true /\
  ~ (exists fuel,
       fst (run_poll (Lightroom "job" "token") fuel
              (always (ok (nested_body "cancelled")))) <> OutOfFuel).
Proof.
  repeat split. intros (fuel & H). apply H.
  destruct (poll_never (Lightroom "job" "token") fuel
              (always (ok (nested_body "cancelled")))) as (w' & E & _).
  - reflexivity.
  - exact I.
  - intros i _. now apply reported_keeps_polling with (JStr "cancelled").
  - now rewrite E.
Qed.

(** C3, amended. A poll that reads status [s] in its first reply leaves its
    loop there exactly when [s] is terminal for that loop: succeeded or
    failed in every loop, cancelled in the Firefly script only.  On a
    terminal status one GET has been sent and the poll is over whatever the
    fuel.  On any other status the loop condition holds again: fuel for one
    iteration is used up after one GET, and with fuel for more a second GET
    goes out, in the image callback as long as the delay between the two is
    one [time.sleep] accepts.  (The status cancelled in the image callback
    is left aside.) *)
Theorem poll_stops_exactly_at_own_terminal (p : poll) (w : World) (s : json) :
  authorised p w = true ->
  reported p (replies w 0) = Some s ->
  (terminal p s = true ->
   forall fuel, (0 < fuel)%nat ->
     fst (run_poll p fuel w) <> OutOfFuel /\
     gets (trace (snd (run_poll p fuel w))) = (gets (trace w) + 1)%nat) /\
  (non_terminal p s = true ->
   sleeps_fit p w 1 ->
     fst (run_poll p 1 w) = OutOfFuel /\
     gets (trace (snd (run_poll p 1 w))) = (gets (trace w) + 1)%nat /\
     forall fuel, (2 <= fuel)%nat ->
       (gets (trace w) + 2 <= gets (trace (snd (run_poll p fuel w))))%nat).
Proof.
  intros A R. split.
  - intros T fuel F.
    destruct (reported_good_body _ _ _ R) as (b & G).
    destruct (poll_completes p 0 w s b fuel A) as (w' & E & (Gt & _)); auto.
    + destruct p; simpl; auto.
    + intros i L. lia.
    + intro st. now apply reported_observed.
    + rewrite E. split; [apply conclusion_not_out_of_fuel|exact Gt].
  - intros N B.
    assert (K : keeps_polling p (replies w 0))
      by (apply reported_keeps_polling with s; auto using non_terminal_sound).
    destruct (poll_never p 1 w A B) as (w' & E & (_ & Gt & _)).
    + intros i L. now replace i with 0%nat by lia.
    + rewrite E. repeat split; auto.
      intros fuel F. now apply poll_polls_again.
Qed.

Lemma poll_stops_exactly_at_own_terminal_witness :
  (fst (run_poll (Firefly "job" "token") 1
          (always (ok (status_body "cancelled")))) <> OutOfFuel /\
   gets (trace (snd (run_poll (Firefly "job" "token") 1
                       (always (ok (status_body "cancelled"))))))
     = (gets (trace (always (ok (status_body "cancelled")))) + 1)%nat) /\
  (fst (run_poll (ImageCallback "url" with_token) 1
          (always (ok (status_body "pending")))) = OutOfFuel /\
   gets (trace (snd (run_poll (ImageCallback "url" with_token) 1
                       (always (ok (status_body "pending"))))))
     = (gets (trace (always (ok (status_body "pending")))) + 1)%nat /\
   forall fuel, (2 <= fuel)%nat ->
     (gets (trace (always (ok (status_body "pending")))) + 2
      <= gets (trace (snd (run_poll (ImageCallback "url" with_token) fuel
                             (always (ok (status_body "pending")))))))%nat).
Proof.
  split.
  - apply (poll_stops_exactly_at_own_terminal (Firefly "job" "token")
             (always (ok (status_body "cancelled"))) (JStr "cancelled"));
      solve [reflexivity | lia].
  - apply (poll_stops_exactly_at_own_terminal (ImageCallback "url" with_token)
             (always (ok (status_body "pending"))) (JStr "pending"));
      solve [reflexivity | simpl; lia].
Defined.

(** C3 as stated fails: the Photoshop script reads cancelled three times
    running and is still polling. *)
Lemma photoshop_polls_on_after_cancelled :
  reported (Photoshop "job" "token")
    (replies (always (ok (status_body "cancelled"))) 0)
    = Some (JStr "cancelled") /\
  spec_terminal (JStr "cancelled") = true /\
  fst (run_poll (Photoshop "job" "token") 3
         (always (ok (status_body "cancelled")))) = OutOfFuel /\
  gets (trace (snd (run_poll (Photoshop "job" "token") 3
                      (always (ok (status_body "cancelled")))))) = 3%nat.
Proof. repeat split. Qed.

(** C4, amended. A poll that reads the terminal status failed raises
    nothing.  The three scripts print the status and then their failure
    line, and return None; the image callback logs the body of the reply
    and returns it, as it does for succeeded.  Those lines are the last
    events of the poll, right after the GET that met the status.  (For the
    image callback the delays before that GET have to be ones
    [time.sleep] accepts.) *)
Theorem failed_job_is_returned (p : poll) (w : World) (n fuel : nat) :
  authorised p w = true ->
  sleeps_fit p w n ->
  (forall i, (i < n)%nat ->
     exists s, reported p (replies w i) = Some s /\ non_terminal p s = true) ->
  reported p (replies w n) = Some (JStr "failed") ->
  (n < fuel)%nat ->
  exists b before,
    good_body (replies w n) = Some b /\
    fst (run_poll p fuel w)
      = Returned (match p with ImageCallback _ _ => b | _ => JNull end) /\
    trace (snd (run_poll p fuel w))
      = (before ++ last_round p ++ failure_events p b)%list.
Proof.
  intros A B K R F.
  destruct (reported_good_body _ _ _ R) as (b & G).
  destruct (poll_fails p n w b fuel A B (prefix_keeps_polling p w n K) G
              (fun st => reported_observed p _ _ st R) F)
    as (w' & before & E & Tr).
  exists b, before. rewrite E. auto.
Qed.

Lemma failed_job_is_returned_witness :
  exists b before,
    good_body (replies (serving [ok (nested_body "pending");
                                 ok (nested_body "failed")]) 1) = Some b /\
    fst (run_poll (Lightroom "job" "token") 2
           (serving [ok (nested_body "pending"); ok (nested_body "failed")]))
      = Returned JNull /\
    trace (snd (run_poll (Lightroom "job" "token") 2
           (serving [ok (nested_body "pending"); ok (nested_body "failed")])))
      = (before ++ last_round (Lightroom "job" "token")
                ++ failure_events (Lightroom "job" "token") b)%list.
Proof.
  apply (failed_job_is_returned (Lightroom "job" "token")
           (serving [ok (nested_body "pending"); ok (nested_body "failed")])
           1 2).
  - reflexivity.
  - exact I.
  - intros i L. exists (JStr "pending").
    destruct i as [|i]; [split; reflexivity|lia].
  - reflexivity.
  - lia.
Defined.

(** C4 as stated fails: on the status failed the Firefly script returns
    None, and raises nothing. *)
Lemma firefly_failed_returns_none :
  reported (Firefly "job" "token")
    (replies (serving [ok (status_body "failed")]) 0) = Some (JStr "failed") /\
  fst (run_poll (Firefly "job" "token") 1 (serving [ok (status_body "failed")]))
    = Returned JNull /\
  ~ (exists e,
       fst (run_poll (Firefly "job" "token") 1
              (serving [ok (status_body "failed")])) = Raised e).
Proof.
  repeat split. intros (e & H). discriminate H.
Qed.

(** C5, amended. A reply whose code is a client or server error, 400 to
    599, makes [raise_for_status] raise: the poll ends at once with that
    HTTPError, and the GET that met the error is its last.  (Other codes
    outside 200 to 299 do not raise.  For the image callback the delays
    before that GET have to be ones [time.sleep] accepts.) *)
Theorem error_status_aborts_poll (p : poll) (w : World) (n fuel : nat)
    (c : Z) (b : option json) :
  authorised p w = true ->
  sleeps_fit p w n ->
  (forall i, (i < n)%nat ->
     exists s, reported p (replies w i) = Some s /\ non_terminal p s = true) ->
  replies w n = Reply c b ->
  400 <= c < 600 ->
  (n < fuel)%nat ->
  fst (run_poll p fuel w) = Raised (HTTPError c) /\
  gets (trace (snd (run_poll p fuel w))) = (gets (trace w) + (n + 1))%nat.
Proof.
  intros A B K R C F.
  destruct (poll_aborts p n w c b fuel A B (prefix_keeps_polling p w n K) R)
    as (w' & E & (Gt & _)); auto.
  - unfold is_error_status. apply andb_true_iff. split; lia.
  - rewrite E. split; [reflexivity|]. simpl. lia.
Qed.

Lemma error_status_aborts_poll_witness :
  fst (run_poll (Lightroom "job" "token") 9
         (serving [ok (nested_body "pending"); Reply 500 None;
                   ok (nested_body "succeeded")]))
    = Raised (HTTPError 500) /\
  gets (trace (snd (run_poll (Lightroom "job" "token") 9
         (serving [ok (nested_body "pending"); Reply 500 None;
                   ok (nested_body "succeeded")]))))
    = (gets (trace (serving [ok (nested_body "pending"); Reply 500 None;
                             ok (nested_body "succeeded")])) + (1 + 1))%nat.
Proof.
  apply (error_status_aborts_poll (Lightroom "job" "token")
           (serving [ok (nested_body "pending"); Reply 500 None;
                     ok (nested_body "succeeded")]) 1 9 500 None).
  - reflexivity.
  - exact I.
  - intros i L. exists (JStr "pending").
    destruct i as [|i]; [split; reflexivity|lia].
  - reflexivity.
  - lia.
  - lia.
Defined.

(** C5 as stated fails: code 300 is outside 200 to 299, yet the Firefly
    script reads the body that comes with it and polls again. *)
Lemma firefly_polls_on_after_300 :
  non_2xx 300 = true /\
  fst (run_poll (Firefly "job" "token") 9
         (serving [Reply 300 (Some (status_body "pending"));
                   ok (status_body "failed")])) = Returned JNull /\
  gets (trace (snd (run_poll (Firefly "job" "token") 9
         (serving [Reply 300 (Some (status_body "pending"));
                   ok (status_body "failed")])))) = 2%nat.
Proof. repeat split. Qed.

(** C7, amended. The scripts sleep five seconds before every GET.  The
    image callback sleeps after every status check that is not the last,
    for two to the power of the global [fetch_count], which it has raised
    by one before the GET and which is never reset: after the [k]-th check
    of a poll the delay is [2 ^ (c + k)] seconds, [c] being the count when
    the poll began and no other poll running meanwhile, as long as [c + k]
    is no more than 33: a longer delay [time.sleep] does not accept. *)
Theorem poll_delays (p : poll) (w : World) (n fuel : nat) :
  authorised p w = true ->
  sleeps_fit p w n ->
  (forall i, (i < n)%nat ->
     exists s, reported p (replies w i) = Some s /\ non_terminal p s = true) ->
  (exists s, reported p (replies w n) = Some s /\ terminal p s = true) ->
  (n < fuel)%nat ->
  timing (trace (snd (run_poll p fuel w)))
    = (timing (trace w) ++
       match p with
       | ImageCallback _ _ =>
           flat_map (fun k => [poll_get p;
                               EvSleep (2 ^ Z.of_nat (fetch_count w + k))])
                    (seq 1 n) ++ [poll_get p]
       | _ => flat_map (fun _ => [EvSleep 5; poll_get p]) (seq 1 (S n))
       end)%list /\
  fetch_count (snd (run_poll p fuel w))
    = match p with
      | ImageCallback _ _ => (fetch_count w + S n)%nat
      | _ => fetch_count w
      end.
Proof.
  intros A B K (s & R & T) F.
  destruct (reported_good_body _ _ _ R) as (b & G).
  destruct (poll_completes p n w s b fuel A B (prefix_keeps_polling p w n K) G
              (fun st => reported_observed p _ s st R) T F)
    as (w' & E & (_ & Tm & Fc)).
  rewrite E. cbn [fst snd]. split; [|exact Fc].
  rewrite Tm. f_equal.
  destruct p; try reflexivity; now rewrite seq_S, flat_map_app.
Qed.

Lemma poll_delays_witness :
  timing (trace (snd (run_poll (ImageCallback "url" with_token) 5
            (set_fetch_count 3
               (serving [ok (status_body "pending"); ok (nested_body "running");
                         ok (status_body "succeeded")])))))
    = (timing (trace (set_fetch_count 3
               (serving [ok (status_body "pending"); ok (nested_body "running");
                         ok (status_body "succeeded")]))) ++
       flat_map (fun k => [poll_get (ImageCallback "url" with_token);
                           EvSleep (2 ^ Z.of_nat (3 + k))])
                (seq 1 2) ++ [poll_get (ImageCallback "url" with_token)])%list /\
  fetch_count (snd (run_poll (ImageCallback "url" with_token) 5
            (set_fetch_count 3
               (serving [ok (status_body "pending"); ok (nested_body "running");
                         ok (status_body "succeeded")]))))
    = (3 + 3)%nat.
Proof.
  apply (poll_delays (ImageCallback "url" with_token)
           (set_fetch_count 3
              (serving [ok (status_body "pending"); ok (nested_body "running");
                        ok (status_body "succeeded")])) 2 5).
  - reflexivity.
  - simpl. lia.
  - intros i L. destruct i as [|[|i]];
      [exists (JStr "pending"); split; reflexivity
      |exists (JStr "running"); split; reflexivity|lia].
  - exists (JStr "succeeded"). split; reflexivity.
  - lia.
Defined.

(** C7 as stated fails: two polls of the image callback in one process,
    each meeting pending and then succeeded.  The first sleeps 2 seconds
    after its first check, the second 8 seconds after its own first check,
    not 2. *)
Lemma second_poll_sleeps_longer :
  timing (trace (snd (run_poll (ImageCallback "url" with_token) 2
            (serving [ok (status_body "pending"); ok (status_body "succeeded");
                      ok (status_body "pending"); ok (status_body "succeeded")]))))
    = [EvRequest GET "url" (JStr "token"); EvSleep 2;
       EvRequest GET "url" (JStr "token")] /\
  timing (trace (snd (run_poll (ImageCallback "url" with_token) 2
            (snd (run_poll (ImageCallback "url" with_token) 2
               (serving [ok (status_body "pending"); ok (status_body "succeeded");
                         ok (status_body "pending");
                         ok (status_body "succeeded")]))))))
    = [EvRequest GET "url" (JStr "token"); EvSleep 2;
       EvRequest GET "url" (JStr "token");
       EvRequest GET "url" (JStr "token"); EvSleep 8;
       EvRequest GET "url" (JStr "token")].
Proof. split; reflexivity. Qed.

Lemma status_missing_keeps_polling (p : poll) (r : reply) :
  status_missing p r = true -> keeps_polling p r.
Proof.
  unfold status_missing, keeps_polling, observed.
  destruct (good_body r) as [[| | | | |f]|]; try discriminate.
  destruct p; cbn [extract]; intros M status T.
  - exists JNull. simpl. destruct (dict_lookup "status" f); [discriminate|auto].
  - exists JNull. simpl. destruct (dict_lookup "status" f); [discriminate|auto].
  - unfold AutomateWorkflow.lightroom_extract_status. simpl.
    destruct (dict_lookup "outputs" f) as [[| | | |[|[| | | | |o] ?]|]|];
      try discriminate; simpl; eauto.
    destruct (dict_lookup "status" o); [discriminate|eauto].
  - unfold Main.callback_extract_status. simpl.
    destruct (dict_lookup "status" f); [discriminate|].
    destruct (dict_lookup "outputs" f) as [[| | | |[|[| | | | |o] ?]|]|];
      try discriminate; simpl.
    destruct (dict_lookup "status" o); [discriminate|eauto].
Qed.

(** C8, amended. A reply in which the poll finds no status is no error to
    it: the status it holds is then None or the one it held, neither of them
    terminal, and it polls again.  Sent such replies only, a poll sends one
    GET for every iteration it is given and does not return, the image
    callback as long as its delays are ones [time.sleep] accepts. *)
Theorem poll_goes_on_without_status (p : poll) (w : World) (fuel : nat) :
  authorised p w = true ->
  sleeps_fit p w fuel ->
  (forall i, (i < fuel)%nat -> status_missing p (replies w i) = true) ->
  fst (run_poll p fuel w) = OutOfFuel /\
  gets (trace (snd (run_poll p fuel w))) = (gets (trace w) + fuel)%nat.
Proof.
  intros A B M.
  destruct (poll_never p fuel w A B) as (w' & E & (_ & Gt & _)).
  - intros i L. apply status_missing_keeps_polling. auto.
  - now rewrite E.
Qed.

Lemma poll_goes_on_without_status_witness :
  fst (run_poll (ImageCallback "url" with_token) 4
         (always (ok (JObj [("outputs", JArr [JObj []])])))) = OutOfFuel /\
  gets (trace (snd (run_poll (ImageCallback "url" with_token) 4
         (always (ok (JObj [("outputs", JArr [JObj []])]))))))
    = (gets (trace (always (ok (JObj [("outputs", JArr [JObj []])])))) + 4)%nat.
Proof.
  apply (poll_goes_on_without_status (ImageCallback "url" with_token)
           (always (ok (JObj [("outputs", JArr [JObj []])]))) 4).
  - reflexivity.
  - simpl. lia.
  - intros i L. reflexivity.
Defined.

(** The one malformed body that does end a poll: with neither a status
    nor [outputs], the image callback's lookup of [outputs] raises. *)
Lemma callback_without_outputs_raises (statusUrl : string)
    (request : Main.Request) (w : World) (c : Z) (f : list (string * json))
    (fuel : nat) :
  authorised (ImageCallback statusUrl request) w = true ->
  replies w 0 = Reply c (Some (JObj f)) ->
  is_error_status c = false ->
  dict_lookup "status" f = None ->
  dict_lookup "outputs" f = None ->
  fst (run_poll (ImageCallback statusUrl request) (S fuel) w)
    = Raised (KeyError (JStr "outputs")).
Proof.
  intros A R E St Out. enter_callback A w. unfold bind at 1.
  erewrite while_return_last with (o := Raised (KeyError (JStr "outputs")));
    [reflexivity|reflexivity| |discriminate].
  io_unfold. rewrite R. cbn [status_code body]. rewrite E. cbv [ret].
  unfold Main.callback_extract_status. simpl. rewrite St. simpl.
  rewrite Out. reflexivity.
Qed.

(** C8 as stated fails: the Lightroom script, sent an empty object for
    ever, neither raises nor returns, whatever the fuel. *)
Lemma lightroom_polls_empty_body_for_ever :
  status_missing (Lightroom "job" "token")
    (replies (always (ok (JObj []))) 0) = true /\
  ~ (exists fuel,
       fst (run_poll (Lightroom "job" "token") fuel (always (ok (JObj []))))
         <> OutOfFuel).
Proof.
  split; [reflexivity|]. intros (fuel & H). apply H.
  destruct (poll_never (Lightroom "job" "token") fuel (always (ok (JObj []))))
    as (w' & E & _).
  - reflexivity.
  - exact I.
  - intros i _. now apply status_missing_keeps_polling.
  - now rewrite E.
Qed.

(** C6. A body with no top-level status and with [outputs] a list whose
    first element is an object with status [s]: the extractors of the
    Lightroom script and of the image callback yield [s], whatever status
    was held before; and when [s] is succeeded the poll is over after that
    one GET, the script printing its success lines and returning None, the
    callback returning the body. *)
Theorem nested_status_is_read (p : poll) (w : World) (c : Z)
    (f o : list (string * json)) (rest : list json) (s : json) :
  reads_nested p = true ->
  authorised p w = true ->
  replies w 0 = Reply c (Some (JObj f)) ->
  is_error_status c = false ->
  dict_lookup "status" f = None ->
  dict_lookup "outputs" f = Some (JArr (JObj o :: rest)) ->
  dict_lookup "status" o = Some s ->
  (forall status, extract p status (JObj f) = inr s) /\
  (s = JStr "succeeded" ->
   forall fuel, (0 < fuel)%nat ->
     fst (run_poll p fuel w)
       = Returned (match p with ImageCallback _ _ => JObj f | _ => JNull end) /\
     trace (snd (run_poll p fuel w))
       = (trace w ++ success_events p (JObj f))%list).
Proof.
  intros N A R E Top Out St.
  assert (X : forall status, extract p status (JObj f) = inr s).
  { intro status. destruct p; try discriminate; cbn [extract].
    - unfold AutomateWorkflow.lightroom_extract_status. simpl.
      now rewrite Out; simpl; rewrite St.
    - unfold Main.callback_extract_status. simpl.
      now rewrite Top, Out; simpl; rewrite St. }
  split; [exact X|]. intros -> [|fuel] F; [lia|].
  enough (exists w',
            run_poll p (S fuel) w
              = (Returned (match p with
                           | ImageCallback _ _ => JObj f
                           | _ => JNull
                           end), w') /\
            trace w' = (trace w ++ success_events p (JObj f))%list)
    as (w' & Run & Tr) by (rewrite Run; auto).
  destruct p as [j a|j a|j a|u r]; try discriminate.
  - specialize (X (JStr "pending")). cbn [extract] in X.
    enter_script A. unfold bind at 1.
    erewrite while_loop_next;
      [|reflexivity
       |io_unfold; rewrite R; cbn [status_code body]; rewrite E; cbv [ret];
        rewrite X; reflexivity].
    rewrite while_loop_exit by reflexivity.
    eexists. split; [reflexivity|].
    cbn [trace emit next_reply poll_get success_events].
    now rewrite <- !app_assoc.
  - specialize (X (JStr "")). cbn [extract] in X.
    enter_callback A w. unfold bind at 1.
    erewrite while_return_last with (o := Returned (Return (JObj f)));
      [|reflexivity
       |io_unfold; rewrite R; cbn [status_code body]; rewrite E; cbv [ret];
        rewrite X; reflexivity
       |discriminate].
    eexists. split; [reflexivity|].
    cbn [trace emit next_reply poll_get success_events set_fetch_count].
    now rewrite <- !app_assoc.
Qed.

Lemma nested_status_is_read_witness :
  (forall status,
     extract (Lightroom "job" "token") status (nested_body "succeeded")
       = inr (JStr "succeeded")) /\
  fst (run_poll (Lightroom "job" "token") 1
         (serving [ok (nested_body "succeeded")])) = Returned JNull /\
  trace (snd (run_poll (Lightroom "job" "token") 1
                (serving [ok (nested_body "succeeded")])))
    = (trace (serving [ok (nested_body "succeeded")]) ++
       success_events (Lightroom "job" "token") (nested_body "succeeded"))%list.
Proof.
  destruct (nested_status_is_read (Lightroom "job" "token")
              (serving [ok (nested_body "succeeded")]) 200
              [("outputs", JArr [JObj [("status", JStr "succeeded")]])]
              [("status", JStr "succeeded")] [] (JStr "succeeded")
              eq_refl eq_refl eq_refl eq_refl eq_refl eq_refl eq_refl)
    as [H1 H2].
  split; [exact H1|]. apply H2; [reflexivity|lia].
Defined.

(** ** The access-token guard *)

(** The handlers that open with the guard answer a request without the
    cookie with the 401 and touch nothing. *)
Lemma guard_first_raises_401 (e : Main.endpoint) (fuel : nat)
    (request : Main.Request) (w : World) :
  guard_first e = true ->
  Main.py_not (Main.cookies_get "access_token" (Main.cookies request)) = true ->
  Main.handler fuel e request w = (Raised Main.unauthorized, w).
Proof.
  intros G C.
  assert (A : Main.access_token_guard request w = (Raised Main.unauthorized, w))
    by (unfold Main.access_token_guard; now rewrite C).
  destruct e; try discriminate; cbn [Main.handler];
    cbv [Main.generate_image Main.generate_object_composite
         Main.success_image_callback Main.check_image_status
         Main.cancel_image_job Main.upload_image Main.expand_image_async
         Main.expand_image_for_all_sizes Main.generate_similar_async
         Main.list_custom_models Main.generate_video_from_text
         Main.remove_background_photoshop_async Main.get_psd_status
         Main.get_available_voices Main.get_available_avatars
         Main.generate_avatar_video Main.generate_audio_from_text
         Main.dub_video Main.check_audio_video_status Main.guarded_call];
    unfold bind at 1; now rewrite A.
Qed.

(** C9. The claim fails on three routes: in /reframe-video, /auto-tone and
    /lightroom-status the guard stands inside the [try], whose
    [except Exception] catches the 401 and raises a 500 in its place.  No
    request has gone out; an error line has been logged. *)
Theorem guard_inside_try_raises_500 (w : World) (job_id : string) :
  Main.handler 0 Main.ReframeVideo no_cookie w
    = (Raised (HTTPException 500 (StrOf "" Main.unauthorized)),
       emit (EvLog "Error occurred while reframing video: " []) w) /\
  Main.handler 0 Main.AutoTone no_cookie w
    = (Raised (HTTPException 500
                 (StrOf "Failed to submit auto tone job. " Main.unauthorized)),
       emit (EvLog "Error auto tone job: " []) w) /\
  Main.handler 0 (Main.LightroomStatus job_id) no_cookie w
    = (Raised (HTTPException 500
                 (StrOf "Failed to get Lightroom status. " Main.unauthorized)),
       emit (EvLog "Error getting Lightroom status: " []) w) /\
  requests_sent (trace (emit (EvLog "Error occurred while reframing video: " [])
                          w))
    = requests_sent (trace w).
Proof.
  repeat split. unfold requests_sent. cbn [trace emit].
  rewrite filter_app. simpl. apply app_nil_r.
Qed.

(** ** Presigned URLs *)

(** C10. The presigned-URL route signs for [get_object] and the key it was
    given, unless the method is [put_object]: then it signs for
    [put_object] and the key with [altered/] before it.  Either way the
    signer is called once, for twelve hours. *)
Theorem presigned_url_method_and_key (bucket_name key method : string)
    (request : Main.Request) (w : World) :
  (method <> "put_object" ->
   presigns (trace (snd (Main.get_s3_presigned_url bucket_name key method
                           request w)))
     = (presigns (trace w) ++
        [EvPresign "get_object" bucket_name key 43200])%list) /\
  (method = "put_object" ->
   presigns (trace (snd (Main.get_s3_presigned_url bucket_name key method
                           request w)))
     = (presigns (trace w) ++
        [EvPresign "put_object" bucket_name ("altered/" ++ key) 43200])%list).
Proof.
  unfold Main.get_s3_presigned_url, Aws.generate_presigned_url,
    Aws.s3_generate_presigned_url, try_except, bind, presigns.
  split; intro H.
  - apply String.eqb_neq in H. rewrite H. simpl.
    destruct (presigner w "get_object" bucket_name key Aws.default_expires_in);
      simpl; rewrite ?filter_app; simpl; now rewrite ?app_nil_r.
  - subst method. simpl.
    destruct (presigner w "put_object" bucket_name _ Aws.default_expires_in);
      simpl; rewrite ?filter_app; simpl; now rewrite ?app_nil_r.
Qed.

Lemma presigned_url_method_and_key_witness :
  presigns (trace (snd (Main.get_s3_presigned_url "bucket" "thumbnails/a.png"
                          "delete_object" no_cookie (serving []))))
    = (presigns (trace (serving [])) ++
       [EvPresign "get_object" "bucket" "thumbnails/a.png" 43200])%list /\
  presigns (trace (snd (Main.get_s3_presigned_url "bucket" "a.png"
                          "put_object" no_cookie (serving []))))
    = (presigns (trace (serving [])) ++
       [EvPresign "put_object" "bucket" ("altered/" ++ "a.png") 43200])%list.
Proof.
  split.
  - apply (presigned_url_method_and_key "bucket" "thumbnails/a.png"
             "delete_object" no_cookie (serving [])). discriminate.
  - apply (presigned_url_method_and_key "bucket" "a.png" "put_object"
             no_cookie (serving [])). reflexivity.
Defined.

(** * Further properties of the code *)

(** ** The routes of main.py *)

Lemma guard_first_raises_401_witness :
  Main.handler 0 (Main.CheckStatus "job") no_cookie (serving [])
    = (Raised Main.unauthorized, serving []).
Proof.
  apply (guard_first_raises_401 (Main.CheckStatus "job") 0 no_cookie
           (serving [])); reflexivity.
Defined.

Lemma guard_passes (request : Main.Request) (w : World) :
  has_token request = true ->
  Main.access_token_guard request w = (Returned (token_of request), w).
Proof. apply guard_of_authorised. Qed.

Ltac handler_unfold :=
  cbv [Main.handler Main.generate_image Main.generate_object_composite
       Main.check_image_status Main.cancel_image_job Main.upload_image
       Main.expand_image_async Main.generate_similar_async
       Main.list_custom_models Main.generate_video_from_text
       Main.remove_background_photoshop_async Main.get_psd_status
       Main.get_available_voices Main.get_available_avatars
       Main.generate_avatar_video Main.generate_audio_from_text
       Main.dub_video Main.check_audio_video_status Main.guarded_call
       Main.reframe_video Main.auto_tone Main.get_lightroom_status
       Main.logger_info Main.logger_error Main.catch_Exception
       Main.catch_RequestException
       requests_get requests_post requests_put requests_send
       requests_send_json
       raise_for_status response_json try_except bind ret raise print lift].

(** The routes that call [raise_for_status] outside a [try] let the
    vendor's error reach the framework as the HTTPError of the requests
    library, after the one request they send. *)
Theorem vendor_error_passes_through (e : Main.endpoint) (fuel : nat)
    (request : Main.Request) (w : World) (c : Z) (b : option json) :
  lets_errors_through e = true ->
  has_token request = true ->
  replies w 0 = Reply c b ->
  is_error_status c = true ->
  fst (Main.handler fuel e request w) = Raised (HTTPError c) /\
  List.length (requests_sent (trace (snd (Main.handler fuel e request w))))
    = S (List.length (requests_sent (trace w))).
Proof.
  intros L T R E. pose proof (guard_passes request w T) as G.
  unfold requests_sent.
  destruct e; try discriminate; handler_unfold;
    rewrite G; cbn [replies emit trace next_reply]; rewrite R;
    cbn [status_code body trace emit next_reply fst snd]; rewrite E;
    cbn [fst snd trace emit next_reply];
    rewrite ?filter_app, ?length_app; simpl; split; auto; lia.
Qed.

Lemma vendor_error_passes_through_witness :
  fst (Main.handler 0 (Main.CancelJob "job") with_token
         (serving [Reply 404 None])) = Raised (HTTPError 404) /\
  List.length (requests_sent (trace (snd (Main.handler 0 (Main.CancelJob "job")
                                            with_token
                                            (serving [Reply 404 None])))))
    = S (List.length (requests_sent (trace (serving [Reply 404 None])))).
Proof.
  apply (vendor_error_passes_through (Main.CancelJob "job") 0 with_token
           (serving [Reply 404 None]) 404 None); reflexivity.
Defined.

(** /image-upload hides the vendor's code: the HTTPException it raises with
    that code is caught by its own [except Exception] and comes out as a
    500 that wraps it. *)
Theorem upload_error_becomes_500 (request : Main.Request) (filename : string)
    (w : World) (c : Z) (b : option json) :
  has_token request = true ->
  replies w 0 = Reply c b ->
  is_error_status c = true ->
  fst (Main.upload_image request filename w)
    = Raised (HTTPException 500
                (StrOf "" (HTTPException c (ResponseText b)))).
Proof.
  intros T R E. pose proof (guard_passes request w T) as G.
  handler_unfold. rewrite G. cbn [replies emit trace next_reply]. rewrite R.
  cbn [status_code body]. now rewrite E.
Qed.

Lemma upload_error_becomes_500_witness :
  fst (Main.upload_image with_token "a.png" (serving [Reply 413 None]))
    = Raised (HTTPException 500
                (StrOf "" (HTTPException 413 (ResponseText None)))).
Proof.
  apply (upload_error_becomes_500 with_token "a.png"
           (serving [Reply 413 None]) 413 None); reflexivity.
Defined.

(** /expand-image-async and /generate-video-from-text never look at the
    status code: whatever it is, a body that parses is handed back as the
    result. *)
Theorem error_body_is_relayed (e : Main.endpoint) (fuel : nat)
    (request : Main.Request) (w : World) (c : Z) (b : json) :
  ignores_status e = true ->
  has_token request = true ->
  replies w 0 = Reply c (Some b) ->
  fst (Main.handler fuel e request w) = Returned b.
Proof.
  intros I T R. pose proof (guard_passes request w T) as G.
  destruct e; try discriminate; handler_unfold;
    rewrite G; cbn [replies emit trace next_reply]; now rewrite R.
Qed.

Lemma error_body_is_relayed_witness :
  fst (Main.handler 0
         (Main.ExpandImageAsync (Main.mkExpandImageResponse "image" 1024 1024))
         with_token (serving [Reply 500 (Some (status_body "failed"))]))
    = Returned (status_body "failed").
Proof.
  apply (error_body_is_relayed
           (Main.ExpandImageAsync
              (Main.mkExpandImageResponse "image" 1024 1024)) 0 with_token
           (serving [Reply 500 (Some (status_body "failed"))]) 500
           (status_body "failed")); reflexivity.
Defined.

(** ** Routes that only ever raise 401 or 500 *)

Lemma tidy_bind {A B} (m : IO A) (k : A -> IO B) :
  tidy m -> (forall a, tidy (k a)) -> tidy (bind m k).
Proof.
  intros M K w. unfold bind. specialize (M w).
  destruct (m w) as [[a|e|] w1]; simpl in *; auto. apply K.
Qed.

Lemma tidy_ret {A} (a : A) : tidy (ret a).
Proof. intro w. exact I. Qed.

Lemma tidy_guard (request : Main.Request) :
  tidy (Main.access_token_guard request).
Proof.
  intro w. unfold Main.access_token_guard.
  destruct (Main.py_not _); simpl; auto.
Qed.

Lemma tidy_for_append {A} (f : A -> IO json) (l : list A) :
  (forall x, tidy (f x)) -> forall acc, tidy (Main.for_append l f acc).
Proof.
  intro F. induction l as [|x l IH]; intro acc; simpl.
  - apply tidy_ret.
  - apply tidy_bind; auto.
Qed.

Ltac tidy_cases w :=
  handler_unfold;
  cbv [Main.access_token_guard Main.unauthorized bind ret raise];
  destruct (Main.py_not _); cbn [fst snd tidy_outcome]; auto;
  cbn [replies emit trace next_reply];
  destruct (replies w 0) as [|? [?|]];
  cbn [status_code body fst snd tidy_outcome]; auto;
  try (destruct (is_error_status _); cbn [fst snd tidy_outcome]; auto).

(** Seventeen routes answer with a result, a 401 or a 500 and nothing else:
    no exception of the requests library leaves them. *)
Theorem wrapped_routes_raise_401_or_500 (e : Main.endpoint) (fuel : nat)
    (request : Main.Request) (w : World) :
  wraps_errors e = true ->
  tidy_outcome (fst (Main.handler fuel e request w)).
Proof.
  intro W. destruct e; try discriminate.
  all: try (tidy_cases w; fail).
  cbn [Main.handler]. unfold Main.expand_image_for_all_sizes.
  apply tidy_bind; [apply tidy_guard|]. intros _.
  apply tidy_bind; [|intro; apply tidy_ret].
  apply tidy_for_append. intros size w'. tidy_cases w'.
Qed.

Lemma wrapped_routes_raise_401_or_500_witness :
  tidy_outcome (fst (Main.handler 0 (Main.GetPsdStatus "job") with_token
                       (serving [Reply 503 None]))).
Proof.
  apply (wrapped_routes_raise_401_or_500 (Main.GetPsdStatus "job") 0
           with_token (serving [Reply 503 None])). reflexivity.
Defined.

Lemma expand_one (imageId : string) (size : Z * Z) (request : Main.Request)
    (w : World) (c : Z) (b : json) :
  has_token request = true ->
  replies w 0 = Reply c (Some b) ->
  Main.expand_image_async
    (Main.mkExpandImageResponse imageId (fst size) (snd size)) request w
    = (Returned b,
       next_reply (emit (EvRequestJson POST expand_url (token_of request)
                           (expand_payload imageId size)) w)).
Proof.
  intros T R. pose proof (guard_passes request w T) as G.
  handler_unfold. rewrite G. cbn [replies emit trace next_reply].
  now rewrite R.
Qed.

Lemma expand_each (imageId : string) (request : Main.Request)
    (sizes : list (Z * Z)) :
  has_token request = true ->
  forall (bodies : nat -> json) (acc : list json) (w : World),
    (forall i, (i < List.length sizes)%nat ->
       exists c, replies w i = Reply c (Some (bodies i))) ->
    exists w',
      Main.for_append sizes
        (fun size =>
           Main.expand_image_async
             (Main.mkExpandImageResponse imageId (fst size) (snd size))
             request) acc w
        = (Returned (acc ++ map bodies (seq 0 (List.length sizes)))%list, w') /\
      requests_sent (trace w')
        = (requests_sent (trace w) ++
           map (fun size => EvRequestJson POST expand_url (token_of request)
                              (expand_payload imageId size)) sizes)%list.
Proof.
  intro T. induction sizes as [|size sizes IH]; intros bodies acc w H.
  - exists w. simpl. now rewrite !app_nil_r.
  - destruct (H 0%nat) as (c & R); [simpl; lia|].
    cbn [Main.for_append]. unfold bind at 1.
    rewrite (expand_one imageId size request w c (bodies 0%nat) T R).
    destruct (IH (fun i => bodies (S i)) (acc ++ [bodies 0%nat])%list
                (next_reply (emit (EvRequestJson POST expand_url
                                     (token_of request)
                                     (expand_payload imageId size)) w)))
      as (w' & E & S).
    { intros i L. apply (H (S i)). simpl. lia. }
    exists w'. rewrite E, S. split.
    + cbn [List.length seq map]. rewrite <- seq_shift, map_map, <- app_assoc.
      reflexivity.
    + unfold requests_sent. cbn [trace next_reply emit map].
      rewrite filter_app, <- app_assoc. reflexivity.
Qed.

(** /expand-image-all-sizes sends one expand request for each of the ten
    supported sizes, in the order of the table: each carries the uploaded
    image's id and the width and height of its size.  Whatever the status
    codes that come back, the route answers with the ten bodies in that
    order. *)
Theorem expand_all_sizes_sends_ten (imageId : string)
    (request : Main.Request) (w : World) (bodies : nat -> json) :
  has_token request = true ->
  (forall i, (i < 10)%nat -> exists c, replies w i = Reply c (Some (bodies i))) ->
  fst (Main.expand_image_for_all_sizes imageId request w)
    = Returned (JArr (map bodies (seq 0 10))) /\
  requests_sent (trace (snd (Main.expand_image_for_all_sizes imageId request w)))
    = (requests_sent (trace w) ++
       map (fun size =>
              EvRequestJson POST expand_url (token_of request)
                (JObj [("image",
                        JObj [("source", JObj [("uploadId", JStr imageId)])]);
                       ("size", JObj [("width", JNum (fst size));
                                      ("height", JNum (snd size))])]))
           [(2688, 1536); (1344, 756); (896, 1152); (1344, 768); (2688, 1512);
            (2304, 1792); (1152, 896); (2048, 2048); (1792, 2304);
            (1024, 1024)])%list.
Proof.
  intros T H.
  destruct (expand_each imageId request Main.supported_sizes T bodies [] w H)
    as (w' & E & S).
  assert (Run : Main.expand_image_for_all_sizes imageId request w
                = (Returned (JArr (map bodies (seq 0 10))), w')).
  { unfold Main.expand_image_for_all_sizes.
    unfold bind at 1. rewrite (guard_passes request w T).
    unfold bind at 1. now rewrite E. }
  rewrite Run. split; [reflexivity|exact S].
Qed.

Lemma expand_all_sizes_sends_ten_witness :
  fst (Main.expand_image_for_all_sizes "image" with_token
         (always (Reply 429 (Some (status_body "busy")))))
    = Returned (JArr (map (fun _ => status_body "busy") (seq 0 10))) /\
  requests_sent (trace (snd (Main.expand_image_for_all_sizes "image" with_token
                               (always (Reply 429 (Some (status_body "busy")))))))
    = (requests_sent (trace (always (Reply 429 (Some (status_body "busy"))))) ++
       map (fun size =>
              EvRequestJson POST expand_url (token_of with_token)
                (JObj [("image",
                        JObj [("source", JObj [("uploadId", JStr "image")])]);
                       ("size", JObj [("width", JNum (fst size));
                                      ("height", JNum (snd size))])]))
           [(2688, 1536); (1344, 756); (896, 1152); (1344, 768); (2688, 1512);
            (2304, 1792); (1152, 896); (2048, 2048); (1792, 2304);
            (1024, 1024)])%list.
Proof.
  apply (expand_all_sizes_sends_ten "image" with_token
           (always (Reply 429 (Some (status_body "busy"))))
           (fun _ => status_body "busy")).
  - reflexivity.
  - intros i _. now exists 429.
Defined.

(** ** /crop-image *)

Lemma crop_after_token (access_token : json) (w : World) :
  tidy_outcome
    (fst (try_except
            (response <- requests_post crop_url access_token ;;
             shown <- response_json response ;;
             print "Response " [shown] ;;
             image_request <- response_json response ;;
             print "Photoshop Crop Image Job Submitted:" [image_request] ;;
             ret image_request)
            Main.catch_RequestException
            (fun _ => print "Error occurred while cropping image: " [] ;;
                      raise (HTTPException 500 (Text "Failed to crop image.")))
            w)) /\
  forall d,
    fst (try_except
            (response <- requests_post crop_url access_token ;;
             shown <- response_json response ;;
             print "Response " [shown] ;;
             image_request <- response_json response ;;
             print "Photoshop Crop Image Job Submitted:" [image_request] ;;
             ret image_request)
            Main.catch_RequestException
            (fun _ => print "Error occurred while cropping image: " [] ;;
                      raise (HTTPException 500 (Text "Failed to crop image.")))
            w) <> Raised (HTTPException 401 d).
Proof.
  handler_unfold. cbn [replies emit trace next_reply].
  destruct (replies w 0) as [|c [b|]]; cbn [status_code body fst snd];
    (split; [simpl; auto|intros d; discriminate]).
Qed.

Lemma item_error_not_http (v : json) (k : string) (e : exn) :
  py_item v k = inl e -> forall c d, e <> HTTPException c d.
Proof.
  destruct v as [| | | | |f]; simpl; try (intros [= <-]; discriminate).
  destruct (dict_lookup k f); [discriminate|intros [= <-]; discriminate].
Qed.

Lemma truthy_of_item (v x : json) (k : string) :
  py_item v k = inr x -> py_truthy v = true.
Proof.
  destruct v as [| | | | |[|[k' v'] f]]; try discriminate; simpl; auto.
Qed.

(** [retrieve_access_token] returns an object with keys, or raises
    something that is no HTTPException. *)
Lemma retrieve_token_outcome (w : World) :
  match fst (Main.retrieve_access_token w) with
  | Returned token_data => py_truthy token_data = true
  | Raised e => forall c d, e <> HTTPException c d
  | OutOfFuel => False
  end.
Proof.
  unfold Main.retrieve_access_token. handler_unfold.
  cbn [replies emit trace next_reply].
  destruct (replies w 0) as [|c [b|]]; cbn [status_code body fst];
    try (intros; discriminate).
  - destruct (is_error_status c); cbn [fst]; try (intros; discriminate).
    destruct (py_item b "access_token") eqn:K1; cbn [fst];
      [eapply item_error_not_http; eauto|].
    destruct (py_item b "expires_in") eqn:K2; cbn [fst];
      [eapply item_error_not_http; eauto|].
    destruct (py_item b "token_type") eqn:K3; cbn [fst];
      [eapply item_error_not_http; eauto|].
    eapply truthy_of_item; eauto.
  - destruct (is_error_status c); cbn [fst]; intros; discriminate.
Qed.

(** /crop-image never answers 401: when the cookie is absent it fetches a
    token of its own, and a token reply that got past the key lookups is an
    object with keys, which is never false. *)
Theorem crop_image_never_raises_401 (request : Main.Request) (w : World)
    (d : detail) :
  fst (Main.crop_image request w) <> Raised (HTTPException 401 d).
Proof.
  unfold Main.crop_image.
  destruct (Main.py_not _).
  - unfold bind at 1. unfold bind at 1.
    pose proof (retrieve_token_outcome w) as RT.
    destruct (Main.retrieve_access_token w) as [[token_data|e|] w1];
      cbn [fst] in RT.
    + unfold Main.logger_error at 1. rewrite RT. cbn [negb].
      unfold bind at 1, Main.logger_info at 1.
      apply (proj2 (crop_after_token token_data _)).
    + cbn [fst]. intros [= ->]. now apply (RT 401 d).
    + discriminate.
  - unfold bind at 1. unfold ret at 1.
    apply (proj2 (crop_after_token _ _)).
Qed.

(** Without the cookie /crop-image asks for a token and then sends the crop
    request, with the whole token reply where the access token belongs; the
    status code of the crop reply is not looked at. *)
Theorem crop_image_sends_token_reply (request : Main.Request) (w : World)
    (c0 c1 : Z) (token_data b : json) (t x y : json) :
  has_token request = false ->
  replies w 0 = Reply c0 (Some token_data) ->
  is_error_status c0 = false ->
  py_item token_data "access_token" = inr t ->
  py_item token_data "expires_in" = inr x ->
  py_item token_data "token_type" = inr y ->
  replies w 1 = Reply c1 (Some b) ->
  fst (Main.crop_image request w) = Returned b /\
  requests_sent (trace (snd (Main.crop_image request w)))
    = (requests_sent (trace w) ++
       [EvRequest POST token_url JNull;
        EvRequest POST crop_url token_data])%list.
Proof.
  intros T R0 E0 K1 K2 K3 R1.
  assert (TR : py_truthy token_data = true) by eauto using truthy_of_item.
  enough (exists w', Main.crop_image request w = (Returned b, w') /\
                     requests_sent (trace w')
                     = (requests_sent (trace w) ++
                        [EvRequest POST token_url JNull;
                         EvRequest POST crop_url token_data])%list)
    as (w' & Run & Tr) by (rewrite Run; auto).
  unfold has_token in T. apply negb_false_iff in T.
  unfold Main.crop_image, Main.retrieve_access_token. rewrite T.
  handler_unfold. cbn [replies emit trace next_reply]. rewrite R0.
  cbn [status_code body]. rewrite E0, K1, K2, K3, TR. cbn [negb].
  cbn [replies emit trace next_reply]. rewrite R1. cbn [status_code body].
  eexists. split; [reflexivity|].
  unfold requests_sent. cbn [trace emit next_reply].
  rewrite !filter_app. simpl. now rewrite !app_nil_r, <- !app_assoc.
Qed.

Lemma crop_image_sends_token_reply_witness :
  fst (Main.crop_image no_cookie
         (serving [ok (JObj [("access_token", JStr "abc");
                             ("expires_in", JNum 86399);
                             ("token_type", JStr "bearer")]);
                   Reply 403 (Some (status_body "forbidden"))]))
    = Returned (status_body "forbidden") /\
  requests_sent (trace (snd (Main.crop_image no_cookie
         (serving [ok (JObj [("access_token", JStr "abc");
                             ("expires_in", JNum 86399);
                             ("token_type", JStr "bearer")]);
                   Reply 403 (Some (status_body "forbidden"))]))))
    = (requests_sent (trace
         (serving [ok (JObj [("access_token", JStr "abc");
                             ("expires_in", JNum 86399);
                             ("token_type", JStr "bearer")]);
                   Reply 403 (Some (status_body "forbidden"))])) ++
       [EvRequest POST token_url JNull;
        EvRequest POST crop_url
          (JObj [("access_token", JStr "abc"); ("expires_in", JNum 86399);
                 ("token_type", JStr "bearer")])])%list.
Proof.
  apply (crop_image_sends_token_reply no_cookie
           (serving [ok (JObj [("access_token", JStr "abc");
                               ("expires_in", JNum 86399);
                               ("token_type", JStr "bearer")]);
                     Reply 403 (Some (status_body "forbidden"))])
           200 403 _ _ (JStr "abc") (JNum 86399) (JStr "bearer"));
    reflexivity.
Defined.

(** ** automate_workflow.py: job ids and submissions *)

Lemma py_split_not_nil (sep : ascii) (s : string) :
  AutomateWorkflow.py_split sep s <> [].
Proof.
  destruct s as [|c s]; cbn [AutomateWorkflow.py_split]; [discriminate|].
  destruct (Ascii.eqb c sep); [discriminate|].
  destruct (AutomateWorkflow.py_split sep s); discriminate.
Qed.

(** Splitting at a separator splits the list of segments. *)
Lemma py_split_app (sep : ascii) (a b : string) :
  AutomateWorkflow.py_split sep (a ++ String sep b)
    = (AutomateWorkflow.py_split sep a ++ AutomateWorkflow.py_split sep b)%list.
Proof.
  induction a as [|c a IH]; cbn [append AutomateWorkflow.py_split].
  - now rewrite Ascii.eqb_refl.
  - destruct (Ascii.eqb c sep); rewrite IH; [reflexivity|].
    pose proof (py_split_not_nil sep a) as N.
    destruct (AutomateWorkflow.py_split sep a); [contradiction|reflexivity].
Qed.

Lemma py_split_no_slash (s : string) :
  no_slash s = true -> AutomateWorkflow.py_split "/" s = [s].
Proof.
  induction s as [|c s IH]; cbn [no_slash AutomateWorkflow.py_split]; auto.
  intros H. apply andb_true_iff in H as [C N].
  apply negb_true_iff in C. rewrite C, (IH N). reflexivity.
Qed.

Lemma py_split_segments (s : string) :
  Forall (fun seg => no_slash seg = true) (AutomateWorkflow.py_split "/" s).
Proof.
  induction s as [|c s IH]; cbn [AutomateWorkflow.py_split].
  - repeat constructor.
  - destruct (Ascii.eqb c "/") eqn:C; [constructor; auto|].
    destruct (AutomateWorkflow.py_split "/" s) as [|h t];
      [repeat constructor; simpl; now rewrite C|].
    inversion IH; subst. constructor; auto. simpl. now rewrite C.
Qed.

Lemma last_app_not_nil {A} (l1 l2 : list A) (d : A) :
  l2 <> [] -> last (l1 ++ l2) d = last l2 d.
Proof.
  intro N. induction l1 as [|x l1 IH]; [reflexivity|].
  cbn [app]. destruct (l1 ++ l2)%list eqn:E.
  - apply app_eq_nil in E as [_ E]. contradiction.
  - rewrite <- E in *. simpl. rewrite E. rewrite <- E. exact IH.
Qed.

Lemma job_id_of_link (response links self : json) (base id : string) :
  py_item response "_links" = inr links ->
  py_item links "self" = inr self ->
  py_item self "href" = inr (JStr (base ++ "/" ++ id)) ->
  no_slash id = true ->
  AutomateWorkflow.extract_job_id response = inr id.
Proof.
  intros L S H N. unfold AutomateWorkflow.extract_job_id, ebind.
  rewrite L, S, H. cbn [AutomateWorkflow.last_segment]. f_equal.
  change (base ++ "/" ++ id) with (base ++ String "/" id).
  rewrite py_split_app, last_app_not_nil by apply py_split_not_nil.
  now rewrite py_split_no_slash.
Qed.

(** The job id is what follows the last slash of the self link: a link
    made of a base, a slash and an id without slashes gives back the id. *)
Theorem extract_job_id_last_segment (response links self : json)
    (base id : string) :
  py_item response "_links" = inr links ->
  py_item links "self" = inr self ->
  py_item self "href" = inr (JStr (base ++ "/" ++ id)) ->
  no_slash id = true ->
  AutomateWorkflow.extract_job_id response = inr id.
Proof. exact (job_id_of_link response links self base id). Qed.

Lemma extract_job_id_last_segment_witness :
  AutomateWorkflow.extract_job_id
    (self_link ("https://image.adobe.io/sensei/status" ++ "/" ++ "1234-abcd"))
    = inr "1234-abcd".
Proof.
  apply (extract_job_id_last_segment _
           (JObj [("self", JObj [("href", JStr ("https://image.adobe.io/sensei/status" ++ "/" ++ "1234-abcd"))])])
           (JObj [("href", JStr ("https://image.adobe.io/sensei/status" ++ "/" ++ "1234-abcd"))])
           "https://image.adobe.io/sensei/status" "1234-abcd");
    reflexivity.
Defined.

Lemma last_segment_no_slash (s : string) :
  no_slash (last (AutomateWorkflow.py_split "/" s) EmptyString) = true.
Proof.
  pose proof (py_split_segments s) as F.
  pose proof (py_split_not_nil "/" s) as N.
  induction (AutomateWorkflow.py_split "/" s) as [|h t IH]; [contradiction|].
  inversion F; subst. destruct t as [|h' t]; [assumption|].
  apply IH; [assumption|discriminate].
Qed.

(** Whatever the reply, a job id that comes out has no slash in it. *)
Theorem extract_job_id_has_no_slash (response : json) (id : string) :
  AutomateWorkflow.extract_job_id response = inr id -> no_slash id = true.
Proof.
  unfold AutomateWorkflow.extract_job_id, ebind.
  destruct (py_item response "_links") as [|links]; [discriminate|].
  destruct (py_item links "self") as [|self]; [discriminate|].
  destruct (py_item self "href") as [|[| | |s| |]]; try discriminate.
  cbn [AutomateWorkflow.last_segment]. intros [= <-].
  apply last_segment_no_slash.
Qed.

Lemma extract_job_id_has_no_slash_witness : no_slash "c" = true.
Proof.
  apply (extract_job_id_has_no_slash (self_link "a/b/c") "c"). reflexivity.
Defined.

(** Without the client id in the environment none of the six script
    functions does anything: the KeyError of the lookup comes first, before
    any sleep, request or print. *)
Theorem scripts_need_client_id (w : World) (fuel : nat)
    (job_id access_token : string) (signed_input_url : json) :
  environ_client_id w = None ->
  let e := KeyError (JStr "FIREFLY_SERVICES_CLIENT_ID") in
  AutomateWorkflow.check_photoshop_job_status fuel job_id access_token w
    = (Raised e, w) /\
  AutomateWorkflow.check_firefly_job_status fuel job_id access_token w
    = (Raised e, w) /\
  AutomateWorkflow.check_lightroom_job_status fuel job_id access_token w
    = (Raised e, w) /\
  AutomateWorkflow.remove_background access_token w = (Raised e, w) /\
  AutomateWorkflow.generate_object_composite access_token w = (Raised e, w) /\
  AutomateWorkflow.auto_tone access_token signed_input_url w = (Raised e, w).
Proof.
  intros E e.
  assert (K : os_environ_client_id w = (Raised e, w))
    by (unfold os_environ_client_id; now rewrite E).
  unfold AutomateWorkflow.check_photoshop_job_status,
    AutomateWorkflow.check_firefly_job_status,
    AutomateWorkflow.check_lightroom_job_status,
    AutomateWorkflow.remove_background,
    AutomateWorkflow.generate_object_composite, AutomateWorkflow.auto_tone.
  repeat split; unfold bind at 1; now rewrite K.
Qed.

Lemma scripts_need_client_id_witness :
  AutomateWorkflow.remove_background "token"
    (mkWorld (fun _ => NoReply) [] 0 None (fun _ _ _ _ => None))
    = (Raised (KeyError (JStr "FIREFLY_SERVICES_CLIENT_ID")),
       mkWorld (fun _ => NoReply) [] 0 None (fun _ _ _ _ => None)).
Proof.
  apply (scripts_need_client_id
           (mkWorld (fun _ => NoReply) [] 0 None (fun _ _ _ _ => None))
           0 "job" "token" JNull eq_refl).
Defined.

(** The job that the workflow polls after a submission: when the reply to
    [remove_background] or [auto_tone] carries a self link, the function
    hands back that reply after its one POST, and [extract_job_id] reads
    from it the last segment of the link. *)
Theorem submitted_job_id (w : World) (access_token : string)
    (signed_input_url : json) (c : Z) (b links self : json)
    (base id : string) :
  environ_client_id w <> None ->
  replies w 0 = Reply c (Some b) ->
  is_error_status c = false ->
  py_item b "_links" = inr links ->
  py_item links "self" = inr self ->
  py_item self "href" = inr (JStr (base ++ "/" ++ id)) ->
  no_slash id = true ->
  (fst (AutomateWorkflow.remove_background access_token w) = Returned b /\
   fst (AutomateWorkflow.auto_tone access_token signed_input_url w)
     = Returned b) /\
  AutomateWorkflow.extract_job_id b = inr id /\
  requests_sent (trace (snd (AutomateWorkflow.remove_background
                               access_token w)))
    = (requests_sent (trace w) ++
       [EvRequest POST "https://image.adobe.io/sensei/cutout"
                  (JStr access_token)])%list.
Proof.
  intros E R C L S H N.
  assert (K : exists v, os_environ_client_id w = (Returned v, w)).
  { unfold os_environ_client_id.
    destruct (environ_client_id w); [eauto|contradiction]. }
  destruct K as (v & K).
  unfold AutomateWorkflow.remove_background, AutomateWorkflow.auto_tone.
  repeat split.
  - unfold bind at 1. rewrite K. handler_unfold.
    cbn [replies emit trace next_reply]. rewrite R. cbn [status_code body].
    now rewrite C.
  - unfold bind at 1. rewrite K. handler_unfold.
    cbn [replies emit trace next_reply]. rewrite R. cbn [status_code body].
    now rewrite C.
  - eapply job_id_of_link; eauto.
  - unfold bind at 1. rewrite K. handler_unfold.
    cbn [replies emit trace next_reply]. rewrite R. cbn [status_code body].
    rewrite C. unfold requests_sent. cbn [snd trace emit next_reply].
    rewrite !filter_app. simpl. now rewrite app_nil_r.
Qed.

Lemma submitted_job_id_witness :
  (fst (AutomateWorkflow.remove_background "token"
          (serving [ok (self_link ("https://image.adobe.io/sensei/status" ++
                                   "/" ++ "42"))]))
     = Returned (self_link ("https://image.adobe.io/sensei/status" ++
                            "/" ++ "42")) /\
   fst (AutomateWorkflow.auto_tone "token" JNull
          (serving [ok (self_link ("https://image.adobe.io/sensei/status" ++
                                   "/" ++ "42"))]))
     = Returned (self_link ("https://image.adobe.io/sensei/status" ++
                            "/" ++ "42"))) /\
  AutomateWorkflow.extract_job_id
    (self_link ("https://image.adobe.io/sensei/status" ++ "/" ++ "42"))
    = inr "42" /\
  requests_sent (trace (snd (AutomateWorkflow.remove_background "token"
          (serving [ok (self_link ("https://image.adobe.io/sensei/status" ++
                                   "/" ++ "42"))]))))
    = (requests_sent (trace
          (serving [ok (self_link ("https://image.adobe.io/sensei/status" ++
                                   "/" ++ "42"))])) ++
       [EvRequest POST "https://image.adobe.io/sensei/cutout"
                  (JStr "token")])%list.
Proof.
  apply (submitted_job_id
           (serving [ok (self_link ("https://image.adobe.io/sensei/status" ++
                                    "/" ++ "42"))])
           "token" JNull 200 _
           (JObj [("self", JObj [("href", JStr ("https://image.adobe.io/sensei/status" ++ "/" ++ "42"))])])
           (JObj [("href", JStr ("https://image.adobe.io/sensei/status" ++ "/" ++ "42"))])
           "https://image.adobe.io/sensei/status" "42");
    solve [reflexivity | discriminate].
Defined.

(** ** The S3 routes *)

Lemma read_s3_contents_cases (list_objects_v2 : Aws.lister)
    (bucket_name prefix : string) (w : World) :
  match list_objects_v2 bucket_name prefix with
  | inr (Some keys) =>
      Aws.read_s3_contents (inr list_objects_v2) bucket_name prefix w
        = (Returned (Some keys), w)
  | _ =>
      Aws.read_s3_contents (inr list_objects_v2) bucket_name prefix w
        = (Returned None, emit (EvLog "Error reading " []) w)
  end.
Proof.
  cbv beta iota delta [Aws.read_s3_contents try_except bind lift ret raise
                       Aws.logger_error].
  destruct (list_objects_v2 bucket_name prefix) as [e|[keys|]]; reflexivity.
Qed.

(** /get-s3-video-names raises only when the S3 client cannot be
    constructed: that happens before the [try] of [read_s3_contents], and
    the route turns it into a 500.  With the client constructed it never
    raises: it answers with the listed keys that end in [.mp4], in the
    order of the listing, and a listing that fails looks to the caller like
    an empty bucket. *)
Theorem video_names_raise_only_without_client (boto3_client : Aws.client)
    (bucket_name prefix : string) (request : Main.Request) (w : World) :
  fst (Main.get_s3_video_names boto3_client bucket_name prefix request w)
    = match boto3_client with
      | inl _ => Raised (HTTPException 500 (Text "Failed to read S3 contents."))
      | inr list_objects_v2 =>
          Returned (JArr (map JStr
            (filter is_mp4 (listed_keys (list_objects_v2 bucket_name prefix)))))
      end.
Proof.
  destruct boto3_client as [e|list_objects_v2]; [reflexivity|].
  unfold Main.get_s3_video_names, try_except. unfold bind at 1.
  pose proof (read_s3_contents_cases list_objects_v2 bucket_name prefix w) as R.
  destruct (list_objects_v2 bucket_name prefix) as [e|[[|k keys]|]];
    rewrite R; reflexivity.
Qed.

Lemma presign_one (bucket_name key : string) (w : World) :
  Aws.generate_presigned_url bucket_name key "get_object"
    Aws.default_expires_in w
  = match presigner w "get_object" bucket_name key 43200 with
    | Some url =>
        (Returned (url, Aws.py_replace key "thumbnails/" ""),
         emit (EvPresign "get_object" bucket_name key 43200) w)
    | None =>
        (Raised ClientError,
         emit (EvLog "Couldn't get a presigned URL for client method put_object." [])
              (emit (EvPresign "get_object" bucket_name key 43200) w))
    end.
Proof.
  unfold Aws.generate_presigned_url, Aws.s3_generate_presigned_url,
    try_except, bind.
  cbn [String.eqb Ascii.eqb Bool.eqb].
  change Aws.default_expires_in with 43200.
  destruct (presigner w "get_object" bucket_name key 43200); reflexivity.
Qed.

Lemma thumbnails_for_signed (bucket_name : string) (files : list string) :
  forall (acc : list json) (w : World) (url : string -> string),
    (forall k, In k files ->
       presigner w "get_object" bucket_name k 43200 = Some (url k)) ->
    exists w',
      Main.thumbnails_for bucket_name files acc w
        = (Returned
             (acc ++ map (fun k => JArr [JStr (url k);
                                         JStr (Aws.py_replace k "thumbnails/" "")])
                         (filter (fun k => negb (String.eqb (url k) "")) files))%list,
           w') /\
      presigns (trace w')
        = (presigns (trace w) ++
           map (fun k => EvPresign "get_object" bucket_name k 43200) files)%list /\
      presigner w' = presigner w.
Proof.
  induction files as [|k files IH]; intros acc w url H.
  - exists w. simpl. now rewrite !app_nil_r.
  - cbn [Main.thumbnails_for]. unfold bind at 1.
    rewrite presign_one, (H k (or_introl eq_refl)).
    destruct (IH (if String.eqb (url k) "" then acc
                  else (acc ++ [JArr [JStr (url k);
                                      JStr (Aws.py_replace k "thumbnails/" "")]])%list)
                (emit (EvPresign "get_object" bucket_name k 43200) w) url)
      as (w' & E & P & S).
    { intros k' I. apply H. now right. }
    exists w'. rewrite E, P, S. repeat split.
    + cbn [filter map]. destruct (String.eqb (url k) ""); cbn [negb];
        [reflexivity|]. now rewrite <- app_assoc.
    + unfold presigns. cbn [trace emit map]. rewrite filter_app, <- app_assoc.
      reflexivity.
Qed.

(** /get-s3-thumbnails asks the signer once for every listed key, in the
    order of the listing, for [get_object] and twelve hours, and answers
    with the pairs of URL and name of the keys whose URL is not empty. *)
Theorem thumbnails_sign_every_key (list_objects_v2 : Aws.lister)
    (bucket_name prefix : string) (request : Main.Request) (w : World)
    (keys : list string) (url : string -> string) :
  list_objects_v2 bucket_name prefix = inr (Some keys) ->
  (forall k, In k keys ->
     presigner w "get_object" bucket_name k 43200 = Some (url k)) ->
  fst (Main.get_s3_thumbnails (inr list_objects_v2) bucket_name prefix
         request w)
    = Returned (JArr
        (map (fun k => JArr [JStr (url k);
                             JStr (Aws.py_replace k "thumbnails/" "")])
             (filter (fun k => negb (String.eqb (url k) "")) keys))) /\
  presigns (trace (snd (Main.get_s3_thumbnails (inr list_objects_v2)
                          bucket_name prefix request w)))
    = (presigns (trace w) ++
       map (fun k => EvPresign "get_object" bucket_name k 43200) keys)%list.
Proof.
  intros L H.
  pose proof (read_s3_contents_cases list_objects_v2 bucket_name prefix w) as R.
  rewrite L in R.
  enough (exists w',
            Main.get_s3_thumbnails (inr list_objects_v2) bucket_name prefix
              request w
              = (Returned (JArr
                   (map (fun k => JArr [JStr (url k);
                                        JStr (Aws.py_replace k "thumbnails/" "")])
                        (filter (fun k => negb (String.eqb (url k) "")) keys))),
                 w') /\
            presigns (trace w')
              = (presigns (trace w) ++
                 map (fun k => EvPresign "get_object" bucket_name k 43200)
                     keys)%list)
    as (w' & Run & P) by (rewrite Run; auto).
  unfold Main.get_s3_thumbnails, try_except. unfold bind at 1. rewrite R.
  destruct keys as [|k keys].
  - exists w. simpl. now rewrite app_nil_r.
  - destruct (thumbnails_for_signed bucket_name (k :: keys) [] w url H)
      as (w' & E & P & _).
    unfold bind at 1. rewrite E. exists w'. split; [reflexivity|exact P].
Qed.

Lemma thumbnails_sign_every_key_witness :
  fst (Main.get_s3_thumbnails (inr sample_lister) "bucket" "videos/" no_cookie
         (signing (serving [])))
    = Returned (JArr
        (map (fun k => JArr [JStr ("https://s3/" ++ "bucket" ++ "/" ++ k ++
                                   "?" ++ "get_object");
                             JStr (Aws.py_replace k "thumbnails/" "")])
             (filter (fun k => negb (String.eqb
                        ("https://s3/" ++ "bucket" ++ "/" ++ k ++ "?" ++
                         "get_object") ""))
                     ["videos/a.mp4"; "videos/notes.txt"; "b.mp4"]))) /\
  presigns (trace (snd (Main.get_s3_thumbnails (inr sample_lister) "bucket"
                          "videos/" no_cookie (signing (serving [])))))
    = (presigns (trace (signing (serving []))) ++
       map (fun k => EvPresign "get_object" "bucket" k 43200)
           ["videos/a.mp4"; "videos/notes.txt"; "b.mp4"])%list.
Proof.
  apply (thumbnails_sign_every_key sample_lister "bucket" "videos/" no_cookie
           (signing (serving []))
           ["videos/a.mp4"; "videos/notes.txt"; "b.mp4"]
           (fun k => "https://s3/" ++ "bucket" ++ "/" ++ k ++ "?" ++
                     "get_object")).
  - reflexivity.
  - intros k _. reflexivity.
Defined.

Lemma thumbnails_for_unsigned (bucket_name : string) (files : list string) :
  forall (acc : list json) (w : World),
    (exists k, In k files /\
               presigner w "get_object" bucket_name k 43200 = None) ->
    fst (Main.thumbnails_for bucket_name files acc w) = Raised ClientError.
Proof.
  induction files as [|k files IH]; intros acc w (k' & I & N).
  - destruct I.
  - cbn [Main.thumbnails_for]. unfold bind at 1. rewrite presign_one.
    destruct (presigner w "get_object" bucket_name k 43200) as [u|] eqn:P;
      [|reflexivity].
    apply IH. destruct I as [<-|I]; [congruence|].
    exists k'. split; [exact I|exact N].
Qed.

(** One key the signer refuses is enough for /get-s3-thumbnails to answer
    500: the URLs already signed are dropped. *)
Theorem thumbnails_fail_as_a_whole (list_objects_v2 : Aws.lister)
    (bucket_name prefix : string) (request : Main.Request) (w : World)
    (keys : list string) (k : string) :
  list_objects_v2 bucket_name prefix = inr (Some keys) ->
  In k keys ->
  presigner w "get_object" bucket_name k 43200 = None ->
  fst (Main.get_s3_thumbnails (inr list_objects_v2) bucket_name prefix
         request w)
    = Raised (HTTPException 500 (Text "Failed to read S3 contents.")).
Proof.
  intros L I N.
  pose proof (read_s3_contents_cases list_objects_v2 bucket_name prefix w) as R.
  rewrite L in R.
  unfold Main.get_s3_thumbnails, try_except. unfold bind at 1. rewrite R.
  destruct keys as [|k0 keys]; [destruct I|].
  pose proof (thumbnails_for_unsigned bucket_name (k0 :: keys) [] w
                (ex_intro _ k (conj I N))) as T.
  unfold bind at 1.
  destruct (Main.thumbnails_for bucket_name (k0 :: keys) [] w) as [o w1].
  cbn [fst] in T. subst o. reflexivity.
Qed.

Lemma thumbnails_fail_as_a_whole_witness :
  fst (Main.get_s3_thumbnails (inr sample_lister) "bucket" "videos/" no_cookie
         (serving []))
    = Raised (HTTPException 500 (Text "Failed to read S3 contents.")).
Proof.
  apply (thumbnails_fail_as_a_whole sample_lister "bucket" "videos/" no_cookie
           (serving []) ["videos/a.mp4"; "videos/notes.txt"; "b.mp4"] "b.mp4").
  - reflexivity.
  - simpl. auto.
  - reflexivity.
Defined.

(** On a listing with contents [generate_video_names] returns the last
    segments of the keys that end in [.mp4], names without a slash, and
    logs that no objects were found: the [else] of its [for] runs after
    every loop that is not broken out of. *)
Theorem video_names_log_when_found (list_objects_v2 : Aws.lister)
    (bucket_name prefix : string) (w : World) (keys : list string) :
  list_objects_v2 bucket_name prefix = inr (Some keys) ->
  Aws.generate_video_names (inr list_objects_v2) bucket_name prefix w
    = (Returned (map base_name (filter is_mp4 keys)),
       emit (EvLog "No objects found in bucket: " []) w) /\
  Forall (fun name => no_slash name = true)
         (map base_name (filter is_mp4 keys)).
Proof.
  intro L. unfold Aws.generate_video_names. unfold bind at 1, lift, ret.
  unfold bind at 1, lift. rewrite L. split; [reflexivity|].
  apply Forall_map, Forall_forall. intros k _. apply last_segment_no_slash.
Qed.

Lemma video_names_log_when_found_witness :
  Aws.generate_video_names (inr sample_lister) "bucket" "videos/" (serving [])
    = (Returned (map base_name
                   (filter is_mp4 ["videos/a.mp4"; "videos/notes.txt"; "b.mp4"])),
       emit (EvLog "No objects found in bucket: " []) (serving [])) /\
  Forall (fun name => no_slash name = true)
         (map base_name
            (filter is_mp4 ["videos/a.mp4"; "videos/notes.txt"; "b.mp4"])).
Proof.
  apply (video_names_log_when_found sample_lister "bucket" "videos/"
           (serving []) ["videos/a.mp4"; "videos/notes.txt"; "b.mp4"]).
  reflexivity.
Defined.

(** ** The name that comes with a presigned URL *)

Lemma prefix_app (a b : string) : String.prefix a (a ++ b) = true.
Proof.
  induction a as [|c a IH]; simpl; [now destruct b|].
  destruct (ascii_dec c c); [exact IH|contradiction].
Qed.

Lemma replace_from_skip (old new a k : string) :
  Aws.replace_from old new (String.length a) (a ++ k)
    = Aws.replace_from old new 0 k.
Proof.
  induction a as [|c a IH]; [reflexivity|]. simpl. exact IH.
Qed.

Lemma replace_absent (old new k : string) :
  str_contains old k = false -> Aws.replace_from old new 0 k = k.
Proof.
  induction k as [|c k IH]; [reflexivity|].
  cbn [str_contains Aws.replace_from]. intro H.
  apply orb_false_iff in H as [P C]. rewrite P, (IH C). reflexivity.
Qed.

(** For a key under [thumbnails/] the presigned-URL route answers with the
    URL the signer gave for the whole key and with the key without that
    folder as its name, whatever the method unless it is [put_object]. *)
Theorem presigned_thumbnail_name (bucket_name k method url : string)
    (request : Main.Request) (w : World) :
  method <> "put_object" ->
  str_contains "thumbnails/" k = false ->
  presigner w "get_object" bucket_name ("thumbnails/" ++ k) 43200 = Some url ->
  fst (Main.get_s3_presigned_url bucket_name ("thumbnails/" ++ k) method
         request w)
    = Returned (JObj [("url", JArr [JStr url; JStr k])]).
Proof.
  intros M C P. apply String.eqb_neq in M.
  unfold Main.get_s3_presigned_url. rewrite M.
  unfold try_except. unfold bind at 1. rewrite presign_one, P.
  cbn [fst].
  unfold Aws.py_replace.
  change ("thumbnails/" ++ k) with (String "t" ("humbnails/" ++ k)).
  cbn [Aws.replace_from].
  change (String "t" ("humbnails/" ++ k)) with ("thumbnails/" ++ k).
  rewrite prefix_app.
  change (String.length "thumbnails/" - 1)%nat
    with (String.length "humbnails/").
  rewrite replace_from_skip. cbn [append]. now rewrite replace_absent.
Qed.

Lemma presigned_thumbnail_name_witness :
  fst (Main.get_s3_presigned_url "bucket" ("thumbnails/" ++ "cat.png")
         "head_object" no_cookie (signing (serving [])))
    = Returned (JObj [("url",
        JArr [JStr ("https://s3/" ++ "bucket" ++ "/" ++
                    ("thumbnails/" ++ "cat.png") ++ "?" ++ "get_object");
              JStr "cat.png"])]).
Proof.
  apply (presigned_thumbnail_name "bucket" "cat.png" "head_object" _
           no_cookie (signing (serving []))).
  - discriminate.
  - reflexivity.
  - reflexivity.
Defined.

(** When the signer refuses, the presigned-URL route answers 500 after
    the one call to it. *)
Theorem presigned_url_signer_failure (bucket_name key method : string)
    (request : Main.Request) (w : World) :
  (forall m k, presigner w m bucket_name k 43200 = None) ->
  fst (Main.get_s3_presigned_url bucket_name key method request w)
    = Raised (HTTPException 500 (Text "Failed to generate presigned URL.")) /\
  List.length (presigns (trace (snd (Main.get_s3_presigned_url bucket_name
                                       key method request w))))
    = S (List.length (presigns (trace w))).
Proof.
  intro N.
  unfold Main.get_s3_presigned_url, Aws.generate_presigned_url,
    Aws.s3_generate_presigned_url, try_except, bind, presigns.
  change Aws.default_expires_in with 43200. rewrite N.
  cbn [fst snd Aws.catch_ClientError Main.catch_Exception trace emit
       Main.logger_error raise].
  rewrite !filter_app, !length_app. simpl. split; [reflexivity|lia].
Qed.

Lemma presigned_url_signer_failure_witness :
  fst (Main.get_s3_presigned_url "bucket" "a.png" "put_object" no_cookie
         (serving []))
    = Raised (HTTPException 500 (Text "Failed to generate presigned URL.")) /\
  List.length (presigns (trace (snd (Main.get_s3_presigned_url "bucket"
                                       "a.png" "put_object" no_cookie
                                       (serving [])))))
    = S (List.length (presigns (trace (serving [])))).
Proof.
  apply (presigned_url_signer_failure "bucket" "a.png" "put_object" no_cookie
           (serving [])). reflexivity.
Defined.

(** ** More on the poll loops *)

Lemma while_loop_raises_after {St} (cond : St -> bool) (body : St -> IO St)
    (n fuel : nat) (st st1 : St) (w w1 w2 : World) (e : exn) :
  (forall fuel, while_loop (n + fuel) cond body st w
                = while_loop fuel cond body st1 w1) ->
  cond st1 = true -> body st1 w1 = (Raised e, w2) -> (n < fuel)%nat ->
  while_loop fuel cond body st w = (Raised e, w2).
Proof.
  intros L C B F. replace fuel with (n + S (fuel - S n))%nat by lia.
  rewrite L. now apply while_loop_raise.
Qed.

Lemma unreadable_inv (r : reply) (e : exn) :
  unreadable r = Some e ->
  (r = NoReply /\ e = ConnectionError) \/
  (exists c, r = Reply c None /\ is_error_status c = false /\
             e = JSONDecodeError).
Proof.
  destruct r as [|c [b|]]; simpl; try discriminate.
  - intros [= <-]. now left.
  - destruct (is_error_status c) eqn:E; [discriminate|].
    intros [= <-]. right. eauto.
Qed.

(** A poll ends at once, with the exception of the requests library, on a
    request that gets no reply and on a reply that is no error and does not
    parse; that GET is its last.  (For the image callback the delays before
    that GET have to be ones [time.sleep] accepts.) *)
Theorem poll_aborts_when_unreadable (p : poll) (w : World) (n fuel : nat)
    (e : exn) :
  authorised p w = true ->
  sleeps_fit p w n ->
  (forall i, (i < n)%nat ->
     exists s, reported p (replies w i) = Some s /\ non_terminal p s = true) ->
  unreadable (replies w n) = Some e ->
  (n < fuel)%nat ->
  fst (run_poll p fuel w) = Raised e /\
  gets (trace (snd (run_poll p fuel w))) = (gets (trace w) + (n + 1))%nat.
Proof.
  intros A B K0 U F. pose proof (prefix_keeps_polling p w n K0) as K.
  enough (exists w', run_poll p fuel w = (Raised e, w') /\
                     gets (trace w') = (gets (trace w) + (n + 1))%nat)
    as (w' & Run & G) by (rewrite Run; auto).
  destruct p as [j a|j a|j a|u r].
  - enter_script A.
    lazymatch goal with |- context [while_loop _ ?c0 ?bd ?s0] =>
      destruct (fixed_prefix (Photoshop j a) "Photoshop Job Status: "
                  (fun x => x) (fun x _ => x) c0 bd I (fun _ => eq_refl)
                  (fun _ _ => eq_refl) ltac:(round_reads) n s0 w eq_refl K)
        as (st1 & w1 & L & C1 & (R & G & _))
    end.
    rewrite <- (Nat.add_0_r n), <- R in U.
    unfold bind at 1. erewrite while_loop_raises_after; eauto;
      [|io_unfold;
        destruct (unreadable_inv _ _ U) as [[-> ->]|(c & -> & E & ->)];
        [|cbn [status_code body]; rewrite E]; reflexivity].
    eexists. split; [reflexivity|].
    cbn [trace emit next_reply]. rewrite !gets_app, G.
    change (gets [EvSleep 5]) with 0%nat.
    change (gets [EvRequest GET _ _]) with 1%nat. lia.
  - enter_script A.
    lazymatch goal with |- context [while_loop _ ?c0 ?bd ?s0] =>
      destruct (fixed_prefix (Firefly j a) "Firefly Job Status: "
                  fst (fun x y => (x, y)) c0 bd I
                  ltac:(intros [? ?]; reflexivity)
                  (fun _ _ => eq_refl) ltac:(round_reads) n s0 w eq_refl K)
        as (st1 & w1 & L & C1 & (R & G & _))
    end.
    rewrite <- (Nat.add_0_r n), <- R in U.
    unfold bind at 1. erewrite while_loop_raises_after; eauto;
      [|io_unfold;
        destruct (unreadable_inv _ _ U) as [[-> ->]|(c & -> & E & ->)];
        [|cbn [status_code body]; rewrite E]; reflexivity].
    eexists. split; [reflexivity|].
    cbn [trace emit next_reply]. rewrite !gets_app, G.
    change (gets [EvSleep 5]) with 0%nat.
    change (gets [EvRequest GET _ _]) with 1%nat. lia.
  - enter_script A.
    lazymatch goal with |- context [while_loop _ ?c0 ?bd ?s0] =>
      destruct (fixed_prefix (Lightroom j a) "Lightroom Job Status: "
                  (fun x => x) (fun x _ => x) c0 bd I (fun _ => eq_refl)
                  (fun _ _ => eq_refl) ltac:(round_reads) n s0 w eq_refl K)
        as (st1 & w1 & L & C1 & (R & G & _))
    end.
    rewrite <- (Nat.add_0_r n), <- R in U.
    unfold bind at 1. erewrite while_loop_raises_after; eauto;
      [|io_unfold;
        destruct (unreadable_inv _ _ U) as [[-> ->]|(c & -> & E & ->)];
        [|cbn [status_code body]; rewrite E]; reflexivity].
    eexists. split; [reflexivity|].
    cbn [trace emit next_reply]. rewrite !gets_app, G.
    change (gets [EvSleep 5]) with 0%nat.
    change (gets [EvRequest GET _ _]) with 1%nat. lia.
  - enter_callback A w.
    lazymatch goal with |- context [while_return _ ?c0 ?bd ?s0] =>
      destruct (backoff_prefix u r c0 bd still_running_terminal
                  ltac:(callback_sleeps) n s0 w eq_refl B K)
        as (st1 & w1 & L & C1 & (R & G & _))
    end.
    rewrite <- (Nat.add_0_r n), <- R in U.
    unfold bind at 1.
    replace fuel with (n + S (fuel - S n))%nat by lia. rewrite L.
    erewrite while_return_last with (o := Raised e);
      [|exact C1
       |io_unfold;
        destruct (unreadable_inv _ _ U) as [[-> ->]|(c & -> & E & ->)];
        [|cbn [status_code body]; rewrite E]; reflexivity
       |discriminate].
    eexists. split; [reflexivity|].
    cbn [trace emit next_reply set_fetch_count]. rewrite !gets_app, G.
    change (gets [EvRequest GET _ _]) with 1%nat. lia.
Qed.

Lemma poll_aborts_when_unreadable_witness :
  fst (run_poll (Photoshop "job" "token") 7
         (serving [ok (status_body "running"); Reply 200 None]))
    = Raised JSONDecodeError /\
  gets (trace (snd (run_poll (Photoshop "job" "token") 7
                      (serving [ok (status_body "running"); Reply 200 None]))))
    = (gets (trace (serving [ok (status_body "running"); Reply 200 None]))
       + (1 + 1))%nat.
Proof.
  apply (poll_aborts_when_unreadable (Photoshop "job" "token")
           (serving [ok (status_body "running"); Reply 200 None]) 1 7).
  - reflexivity.
  - exact I.
  - intros i L. exists (JStr "running").
    destruct i as [|i]; [split; reflexivity|lia].
  - reflexivity.
  - lia.
Defined.

(** On succeeded the Firefly script returns the URL it finds at
    [result.outputs[0].image.url] of the terminal body. *)
Theorem firefly_returns_image_url (job_id access_token : string) (w : World)
    (n fuel : nat) (b result outputs output image url : json) :
  let p := Firefly job_id access_token in
  authorised p w = true ->
  (forall i, (i < n)%nat ->
     exists s, reported p (replies w i) = Some s /\ non_terminal p s = true) ->
  good_body (replies w n) = Some b ->
  reported p (replies w n) = Some (JStr "succeeded") ->
  py_item b "result" = inr result ->
  py_item result "outputs" = inr outputs ->
  py_item0 outputs = inr output ->
  py_item output "image" = inr image ->
  py_item image "url" = inr url ->
  (n < fuel)%nat ->
  fst (run_poll p fuel w) = Returned url.
Proof.
  intros p A K G R I1 I2 I3 I4 I5 F.
  destruct (poll_completes p n w (JStr "succeeded") b fuel A I
              (prefix_keeps_polling p w n K) G
              (fun st => reported_observed p _ _ st R) eq_refl F)
    as (w' & E & _).
  rewrite E. cbn [fst p conclusion py_is String.eqb Ascii.eqb Bool.eqb].
  unfold ebind. now rewrite I1, I2, I3, I4, I5.
Qed.


(** A job may have succeeded and the Firefly script still raise: a
    terminal body that says succeeded and has no [result] ends the poll
    with the KeyError of that lookup. *)
Theorem firefly_succeeded_without_result (job_id access_token : string)
    (w : World) (n fuel : nat) (f : list (string * json)) :
  let p := Firefly job_id access_token in
  authorised p w = true ->
  (forall i, (i < n)%nat ->
     exists s, reported p (replies w i) = Some s /\ non_terminal p s = true) ->
  good_body (replies w n) = Some (JObj f) ->
  dict_lookup "status" f = Some (JStr "succeeded") ->
  dict_lookup "result" f = None ->
  (n < fuel)%nat ->
  fst (run_poll p fuel w) = Raised (KeyError (JStr "result")).
Proof.
  intros p A K G S N F.
  assert (R : reported p (replies w n) = Some (JStr "succeeded"))
    by (cbn [reported p]; unfold top_status; now rewrite G).
  destruct (poll_completes p n w (JStr "succeeded") (JObj f) fuel A I
              (prefix_keeps_polling p w n K) G
              (fun st => reported_observed p _ _ st R) eq_refl F)
    as (w' & E & _).
  rewrite E. cbn [fst p conclusion py_is String.eqb Ascii.eqb Bool.eqb].
  unfold ebind. cbn [py_item]. now rewrite N.
Qed.

Lemma firefly_returns_image_url_witness :
  fst (run_poll (Firefly "job" "token") 3
         (serving [ok (status_body "running");
                   ok (composite_done "https://out/1.png")]))
    = Returned (JStr "https://out/1.png").
Proof.
  apply (firefly_returns_image_url "job" "token"
           (serving [ok (status_body "running");
                     ok (composite_done "https://out/1.png")])
           1 3 (composite_done "https://out/1.png")
           (JObj [("outputs",
                   JArr [JObj [("image", JObj [("url", JStr "https://out/1.png")])]])])
           (JArr [JObj [("image", JObj [("url", JStr "https://out/1.png")])]])
           (JObj [("image", JObj [("url", JStr "https://out/1.png")])])
           (JObj [("url", JStr "https://out/1.png")])
           (JStr "https://out/1.png")); try reflexivity.
  - intros i L. exists (JStr "running").
    destruct i as [|i]; [split; reflexivity|lia].
  - lia.
Defined.

Lemma firefly_succeeded_without_result_witness :
  fst (run_poll (Firefly "job" "token") 1
         (serving [ok (status_body "succeeded")]))
    = Raised (KeyError (JStr "result")).
Proof.
  apply (firefly_succeeded_without_result "job" "token"
           (serving [ok (status_body "succeeded")]) 0 1
           [("status", JStr "succeeded")]); try reflexivity.
  - intros i L. lia.
  - lia.
Defined.

(** ** One poll after another *)

Lemma handed_after (p : poll) (n : nat) (w w1 w' : World) :
  advanced p n w w1 ->
  (forall i, replies w' i = replies w1 (S i)) ->
  environ_client_id w' = environ_client_id w1 ->
  handed_on n w w'.
Proof.
  intros (R & _ & _ & _ & E) H E'. split; [|congruence].
  intro i. rewrite H, R. f_equal. lia.
Qed.

(** What [poll_completes] says, and where the poll leaves the replies. *)
Lemma poll_completes_hands_on (p : poll) (n : nat) (w : World) (s b : json)
    (fuel : nat) :
  authorised p w = true ->
  sleeps_fit p w n ->
  (forall i, (i < n)%nat -> keeps_polling p (replies w i)) ->
  good_body (replies w n) = Some b ->
  (forall status, observed p status (replies w n) = Some s) ->
  terminal p s = true ->
  (n < fuel)%nat ->
  exists w', run_poll p fuel w = (conclusion p s b, w') /\
             finished p n w w' /\ handed_on n w w'.
Proof.
  intros A B K G O T F. destruct p as [j a|j a|j a|u r].
  - enter_script A.
    lazymatch goal with |- context [while_loop _ ?c ?bd ?s0] =>
      destruct (fixed_completes (Photoshop j a) "Photoshop Job Status: "
                  (fun x => x) (fun x _ => x) c bd I (fun _ => eq_refl)
                  (fun _ _ => eq_refl) ltac:(round_reads)
                  n s0 w s b fuel eq_refl K G O T F) as (w1 & L & A1)
    end.
    unfold bind at 1. rewrite L.
    destruct (py_is "succeeded" s); eexists;
      (split; [reflexivity|split]);
      solve [eapply finished_fixed; eauto;
             solve [exact I | quiet | reflexivity]
            |eapply handed_after; eauto; reflexivity].
  - enter_script A.
    lazymatch goal with |- context [while_loop _ ?c ?bd ?s0] =>
      destruct (fixed_completes (Firefly j a) "Firefly Job Status: "
                  fst (fun x y => (x, y)) c bd I
                  ltac:(intros [? ?]; reflexivity)
                  (fun _ _ => eq_refl) ltac:(round_reads)
                  n s0 w s b fuel eq_refl K G O T F) as (w1 & L & A1)
    end.
    unfold bind at 1. rewrite L. cbv [conclusion].
    destruct (py_is "succeeded" s).
    + unfold bind at 1, print at 1. unfold bind at 1.
      destruct (ebind (py_item b "result") _) as [e|url];
        eexists; (split; [reflexivity|split]);
        solve [eapply finished_fixed; eauto;
               solve [exact I | quiet | reflexivity]
              |eapply handed_after; eauto; reflexivity].
    + eexists; (split; [reflexivity|split]);
        solve [eapply finished_fixed; eauto;
               solve [exact I | quiet | reflexivity]
              |eapply handed_after; eauto; reflexivity].
  - enter_script A.
    lazymatch goal with |- context [while_loop _ ?c ?bd ?s0] =>
      destruct (fixed_completes (Lightroom j a) "Lightroom Job Status: "
                  (fun x => x) (fun x _ => x) c bd I (fun _ => eq_refl)
                  (fun _ _ => eq_refl) ltac:(round_reads)
                  n s0 w s b fuel eq_refl K G O T F) as (w1 & L & A1)
    end.
    unfold bind at 1. rewrite L.
    destruct (py_is "succeeded" s); eexists;
      (split; [reflexivity|split]);
      solve [eapply finished_fixed; eauto;
             solve [exact I | quiet | reflexivity]
            |eapply handed_after; eauto; reflexivity].
  - enter_callback A w.
    lazymatch goal with |- context [while_return _ ?c ?bd ?s0] =>
      destruct (backoff_completes u r c bd still_running_terminal
                  ltac:(callback_sleeps) ltac:(callback_round)
                  n s0 w s b fuel eq_refl B K G O T F) as (w1 & L & A1)
    end.
    unfold bind at 1. rewrite L.
    eexists; (split; [reflexivity|split]).
    + eapply finished_backoff; eauto; solve [quiet | reflexivity].
    + eapply handed_after; eauto; reflexivity.
Qed.

Lemma authorised_handed_on (p : poll) (n : nat) (w w' : World) :
  handed_on n w w' -> authorised p w = true -> authorised p w' = true.
Proof.
  intros (_ & E) A. destruct p; simpl in *; try now rewrite E. exact A.
Qed.

Lemma reported_same_body (p : poll) (r r' : reply) :
  good_body r' = good_body r -> reported p r' = reported p r.
Proof.
  intro G. destruct p; simpl; unfold top_status, nested_status;
    now rewrite G.
Qed.

(** Polling a job that is over: when the status endpoint goes on to answer
    with the terminal body, a second poll of the same job in the same
    process takes one GET and comes to the same result as the first.  (For
    the image callback the delays of the first poll have to be ones
    [time.sleep] accepts; the second poll has none.) *)
Theorem second_poll_same_result (p : poll) (w : World) (n fuel : nat) :
  authorised p w = true ->
  sleeps_fit p w n ->
  (forall i, (i < n)%nat ->
     exists s, reported p (replies w i) = Some s /\ non_terminal p s = true) ->
  (exists s, reported p (replies w n) = Some s /\ terminal p s = true) ->
  good_body (replies w (S n)) = good_body (replies w n) ->
  (n < fuel)%nat ->
  fst (run_poll p fuel (snd (run_poll p fuel w))) = fst (run_poll p fuel w) /\
  gets (trace (snd (run_poll p fuel (snd (run_poll p fuel w)))))
    = (gets (trace (snd (run_poll p fuel w))) + 1)%nat.
Proof.
  intros A B K (s & R & T) Same F.
  destruct (reported_good_body _ _ _ R) as (b & G).
  destruct (poll_completes_hands_on p n w s b fuel A B
              (prefix_keeps_polling p w n K) G
              (fun st => reported_observed p _ s st R) T F)
    as (w1 & E1 & _ & H).
  rewrite E1. cbn [fst snd].
  assert (R0 : replies w1 0 = replies w (S n))
    by (destruct H as (H & _); rewrite H; f_equal; lia).
  assert (G2 : good_body (replies w1 0) = Some b) by congruence.
  assert (R2 : reported p (replies w1 0) = Some s).
  { rewrite <- R. apply reported_same_body. congruence. }
  destruct (poll_completes p 0 w1 s b fuel
              (authorised_handed_on p n w w1 H A))
    as (w2 & E2 & (Gt & _)); auto.
  - destruct p; simpl; auto.
  - intros i L. lia.
  - intro st. now apply reported_observed.
  - lia.
  - rewrite E2. cbn [fst snd]. split; [reflexivity|]. lia.
Qed.

Lemma second_poll_same_result_witness :
  fst (run_poll (ImageCallback "url" with_token) 4
         (snd (run_poll (ImageCallback "url" with_token) 4
                 (always (ok (status_body "failed"))))))
    = fst (run_poll (ImageCallback "url" with_token) 4
             (always (ok (status_body "failed")))) /\
  gets (trace (snd (run_poll (ImageCallback "url" with_token) 4
         (snd (run_poll (ImageCallback "url" with_token) 4
                 (always (ok (status_body "failed"))))))))
    = (gets (trace (snd (run_poll (ImageCallback "url" with_token) 4
                           (always (ok (status_body "failed")))))) + 1)%nat.
Proof.
  apply (second_poll_same_result (ImageCallback "url" with_token)
           (always (ok (status_body "failed"))) 0 4).
  - reflexivity.
  - simpl. lia.
  - intros i L. lia.
  - exists (JStr "failed"). split; reflexivity.
  - reflexivity.
  - lia.
Defined.

(** ** The delay that is refused *)

(** The counter of the image callback is never reset.  On the iteration
    that takes it past 33 while the status is not terminal, the delay of
    [2 ** fetch_count] seconds is one [time.sleep] refuses: the handler
    raises OverflowError, the GET of that iteration is its last whatever
    replies were still to come, and the counter stays where it was. *)
Theorem callback_backoff_overflows (statusUrl : string)
    (request : Main.Request) (w : World) (n fuel : nat) :
  authorised (ImageCallback statusUrl request) w = true ->
  sleeps_fit (ImageCallback statusUrl request) w n ->
  (forall i, (i <= n)%nat ->
     exists s, reported (ImageCallback statusUrl request) (replies w i) = Some s /\
               non_terminal (ImageCallback statusUrl request) s = true) ->
  (33 < fetch_count w + S n)%nat ->
  (n < fuel)%nat ->
  fst (run_poll (ImageCallback statusUrl request) fuel w)
    = Raised OverflowError /\
  gets (trace (snd (run_poll (ImageCallback statusUrl request) fuel w)))
    = (gets (trace w) + (n + 1))%nat /\
  fetch_count (snd (run_poll (ImageCallback statusUrl request) fuel w))
    = (fetch_count w + S n)%nat.
Proof.
  intros A B K V F.
  destruct (poll_overflows statusUrl request n w fuel A B) as (w' & E & Fin);
    auto.
  - intros i L. destruct (K i L) as (s & R & N).
    eauto using reported_keeps_polling, non_terminal_sound.
  - rewrite E. destruct Fin as (G & _ & C). cbn [fst snd].
    repeat split; [lia|exact C].
Qed.

Lemma callback_backoff_overflows_witness :
  fst (run_poll (ImageCallback "url" with_token) 5
         (set_fetch_count 33
            (serving [ok (status_body "pending");
                      ok (status_body "succeeded")])))
    = Raised OverflowError /\
  gets (trace (snd (run_poll (ImageCallback "url" with_token) 5
         (set_fetch_count 33
            (serving [ok (status_body "pending");
                      ok (status_body "succeeded")])))))
    = (gets (trace (set_fetch_count 33
                      (serving [ok (status_body "pending");
                                ok (status_body "succeeded")]))) + (0 + 1))%nat /\
  fetch_count (snd (run_poll (ImageCallback "url" with_token) 5
         (set_fetch_count 33
            (serving [ok (status_body "pending");
                      ok (status_body "succeeded")]))))
    = (fetch_count (set_fetch_count 33
                      (serving [ok (status_body "pending");
                                ok (status_body "succeeded")])) + 1)%nat.
Proof.
  apply (callback_backoff_overflows "url" with_token
           (set_fetch_count 33
              (serving [ok (status_body "pending");
                        ok (status_body "succeeded")])) 0 5).
  - reflexivity.
  - simpl. lia.
  - intros i L. exists (JStr "pending").
    destruct i as [|i]; [split; reflexivity|lia].
  - simpl. lia.
  - lia.
Defined.

(** ** The S3 client that cannot be constructed *)

(** [read_s3_contents] and [generate_video_names] let the exception of the
    client's construction through, and /get-s3-thumbnails answers it with
    its 500, before any listing or signing. *)
Theorem s3_client_failure (e : exn) (bucket_name prefix : string)
    (request : Main.Request) (w : World) :
  Aws.read_s3_contents (inl e) bucket_name prefix w = (Raised e, w) /\
  Aws.generate_video_names (inl e) bucket_name prefix w = (Raised e, w) /\
  Main.get_s3_thumbnails (inl e) bucket_name prefix request w
    = (Raised (HTTPException 500 (Text "Failed to read S3 contents.")),
       emit (EvLog "Error reading S3 contents: " []) w).
Proof. repeat split. Qed.
